(** * MediGuide: a shallow embedding of the chat and voice services

    The development follows the TypeScript sources:
    - [types.ts]                    -> [Module Types]
    - [constants.ts]                -> [SYSTEM_INSTRUCTION]
    - [services/geminiService.ts]   -> [Module GeminiService], [Module Speech]
    - [services/liveService.ts]     -> [Module Live], [Module LiveService]
    - [App.tsx]                     -> [Module App]
    - [services/audioUtils.ts]      -> [Module AudioUtils]; the file is
      imported by the services and is not among the sources, so its three
      functions follow the prose specification.

    JavaScript numbers that carry clock times and audio samples are
    modelled as exact rationals ([Q]): every 32-bit float is a dyadic
    rational, and the products and quotients the code forms on samples
    (by 32767 and by 32768) are exact in double precision.  Integers are
    [Z], strings are [string] holding the text as UTF-8 bytes, bytes are
    [Z] in the range 0..255.
    Exceptions are explicit: a computation that may throw returns
    [exc A].  What the browser and the SDK answer (the clock, the
    outcome of a network call, of [getUserMedia], of constructing an
    audio context) is an argument of the function that asks. *)

From Stdlib Require Import ZArith QArith Qround Qabs Qminmax.
From Stdlib Require Import List String Ascii Bool Lia Lqa.
From Stdlib Require Import DecimalString.
From Stdlib Require DecimalPos DecimalZ.
Import ListNotations.

Local Open Scope string_scope.
Local Open Scope Z_scope.
Local Open Scope list_scope.

(* ===================================================================== *)
(** ** Exceptions *)
(* ===================================================================== *)

Module Exc.

(** A thrown JavaScript value; only its message matters here. *)
Inductive error : Type :=
| Error (msg : string).

Inductive exc (A : Type) : Type :=
| Ok (a : A)
| Throw (e : error).

Arguments Ok {A} a.
Arguments Throw {A} e.

Definition ret {A} (a : A) : exc A := Ok a.

Definition bind {A B} (c : exc A) (k : A -> exc B) : exc B :=
  match c with
  | Ok a => k a
  | Throw e => Throw e
  end.

(** [try { c } catch (error) { h error }] *)
Definition try_catch {A} (c : exc A) (h : error -> exc A) : exc A :=
  match c with
  | Ok a => Ok a
  | Throw e => h e
  end.

Definition throws {A} (c : exc A) : bool :=
  match c with
  | Ok _ => false
  | Throw _ => true
  end.

End Exc.

Import Exc.

Declare Scope exc_scope.
Delimit Scope exc_scope with exc.
Notation "x <- c ;; k" := (Exc.bind c (fun x => k))
  (at level 61, c at next level, right associativity) : exc_scope.

(* ===================================================================== *)
(** ** JavaScript truthiness of optional strings *)
(* ===================================================================== *)

(** [undefined] and the empty string are falsy; every other string is
    truthy. *)
Definition truthy (s : option string) : bool :=
  match s with
  | None => false
  | Some s => negb (String.eqb s "")
  end.

(** [s || d] on an optional string. *)
Definition or_default (s : option string) (d : string) : string :=
  match s with
  | Some s => if String.eqb s "" then d else s
  | None => d
  end.

(* ===================================================================== *)
(** ** types.ts *)
(* ===================================================================== *)

Module Types.

Inductive Role : Type := user | model.

Inductive ModelMode : Type := fast | standard | thinking.

Definition ModelMode_eqb (a b : ModelMode) : bool :=
  match a, b with
  | fast, fast | standard, standard | thinking, thinking => true
  | _, _ => false
  end.

Record GroundingSource : Type := mkSource {
  title : string;
  uri : string
}.

Record Message : Type := mkMessage {
  id : string;
  role : Role;
  text : string;
  timestamp : Z;                         (* a Date, as epoch milliseconds *)
  isError : option bool;
  sources : option (list GroundingSource)
}.

End Types.

Import Types.

(* ===================================================================== *)
(** ** A JavaScript [Map] with string keys *)
(* ===================================================================== *)

(** A [Map] iterates in the order in which keys were first inserted;
    setting a key that is present replaces its value in place. *)
Module JsMap.

Section WithValue.
Context {V : Type}.

Definition t : Type := list (string * V).

Fixpoint set (m : t) (k : string) (v : V) : t :=
  match m with
  | [] => [(k, v)]
  | (k', v') :: rest =>
      if String.eqb k' k then (k', v) :: rest
      else (k', v') :: set rest k v
  end.

(** [new Map(entries)] inserts the entries from left to right. *)
Definition of_entries (entries : list (string * V)) : t :=
  fold_left (fun m kv => set m (fst kv) (snd kv)) entries [].

Definition keys (m : t) : list string := map fst m.
Definition values (m : t) : list V := map snd m.

Fixpoint get (m : t) (k : string) : option V :=
  match m with
  | [] => None
  | (k', v') :: rest => if String.eqb k' k then Some v' else get rest k
  end.

End WithValue.

Arguments t V : clear implicits.

End JsMap.

(* ===================================================================== *)
(** ** Shapes of the SDK's responses *)
(* ===================================================================== *)

(** Every field the code reaches through [?.] is optional. *)
Module Sdk.

Record Web : Type := mkWeb {
  web_uri : option string;
  web_title : option string
}.

Record GroundingChunk : Type := mkChunk {
  web : option Web
}.

Record GroundingMetadata : Type := mkGroundingMetadata {
  groundingChunks : option (list GroundingChunk)
}.

Record InlineData : Type := mkInlineData {
  data : option string
}.

Record Part : Type := mkPart {
  inlineData : option InlineData
}.

Record Content : Type := mkContent {
  parts : option (list Part)
}.

Record Candidate : Type := mkCandidate {
  content : option Content;
  groundingMetadata : option GroundingMetadata
}.

Record GenerateContentResponse : Type := mkResponse {
  response_text : option string;
  candidates : option (list Candidate)
}.

(** The arguments [ai.chats.create] was called with; the chat object
    itself is opaque to the repository. *)
Record ChatConfig : Type := mkChatConfig {
  systemInstruction : string;
  googleSearch : bool;
  thinkingBudget : option Z
}.

Record Chat : Type := mkChat {
  chat_model : string;
  chat_config : ChatConfig
}.

End Sdk.

Import Sdk.

(* ===================================================================== *)
(** ** constants.ts *)
(* ===================================================================== *)

(** The system prompt is a fixed string; its text plays no role in any
    branch of the code, so only its first line is kept. *)
Definition SYSTEM_INSTRUCTION : string :=
  "You are MediGuide, a compassionate and knowledgeable health information assistant.".

(* ===================================================================== *)
(** ** services/geminiService.ts *)
(* ===================================================================== *)

Module GeminiService.

Definition MODEL_MAP (mode : ModelMode) : string :=
  match mode with
  | fast => "gemini-2.5-flash-lite"
  | standard => "gemini-2.5-flash"
  | thinking => "gemini-3-pro-preview"
  end.

Definition createChatSession (mode : ModelMode) : Chat :=
  let modelName := MODEL_MAP mode in
  let config :=
    {| systemInstruction := SYSTEM_INSTRUCTION;
       googleSearch := true;
       thinkingBudget := None |} in
  let config :=
    if ModelMode_eqb mode thinking
    then {| systemInstruction := systemInstruction config;
            googleSearch := googleSearch config;
            thinkingBudget := Some 32768 |}
    else config in
  {| chat_model := modelName; chat_config := config |}.

(** [result.candidates?.[0]?.groundingMetadata?.groundingChunks || []] *)
Definition groundingChunksOf (result : GenerateContentResponse)
  : list GroundingChunk :=
  match candidates result with
  | Some (c :: _) =>
      match groundingMetadata c with
      | Some gm =>
          match groundingChunks gm with
          | Some chunks => chunks
          | None => []
          end
      | None => []
      end
  | _ => []
  end.

(** [chunk.web?.uri] and [chunk.web?.title] *)
Definition chunk_uri (chunk : GroundingChunk) : option string :=
  match web chunk with
  | Some w => web_uri w
  | None => None
  end.

Definition chunk_title (chunk : GroundingChunk) : option string :=
  match web chunk with
  | Some w => web_title w
  | None => None
  end.

(** The predicate of [.filter]: [chunk.web?.uri && chunk.web?.title]. *)
Definition hasWebSource (chunk : GroundingChunk) : bool :=
  truthy (chunk_uri chunk) && truthy (chunk_title chunk).

(** The function of [.map]; it runs on chunks that passed the filter,
    where both fields are present. *)
Definition toSource (chunk : GroundingChunk) : GroundingSource :=
  {| title := match chunk_title chunk with Some t => t | None => "" end;
     uri := match chunk_uri chunk with Some u => u | None => "" end |}.

Definition extractSources (chunks : list GroundingChunk)
  : list GroundingSource :=
  map toSource (filter hasWebSource chunks).

(** [Array.from(new Map(sources.map(s => [s.uri, s])).values())] *)
Definition uniqueSources (sources : list GroundingSource)
  : list GroundingSource :=
  JsMap.values (JsMap.of_entries (map (fun s => (uri s, s)) sources)).

Record ChatReply : Type := mkReply {
  reply_text : option string;
  reply_sources : list GroundingSource
}.

(** [sendMessage] is the outcome of [chat.sendMessage({ message })];
    the catch block logs and rethrows. *)
Definition sendMessageToGemini
    (sendMessage : Chat -> string -> exc GenerateContentResponse)
    (chat : Chat) (message : string) : exc ChatReply :=
  try_catch
    (result <- sendMessage chat message ;;
     let text := response_text result in
     let groundingChunks := groundingChunksOf result in
     let sources := extractSources groundingChunks in
     let uniqueSources := uniqueSources sources in
     ret {| reply_text := text; reply_sources := uniqueSources |})%exc
    (fun error => Throw error).

End GeminiService.

(* ===================================================================== *)
(** ** Web Audio and typed arrays *)
(* ===================================================================== *)

Module WebAudio.

Record AudioContext : Type := mkAudioContext {
  ctx_sampleRate : Z
}.

(** A single-channel buffer: [getChannelData(0)] and the sample rate. *)
Record AudioBuffer : Type := mkAudioBuffer {
  channelData : list Q;
  sampleRate : Z
}.

(** [buffer.duration] is the length in sample frames over the rate. *)
Definition duration (b : AudioBuffer) : Q :=
  (inject_Z (Z.of_nat (List.length (channelData b))) / inject_Z (sampleRate b))%Q.

(** [channelData[i] = v]; a typed array ignores writes out of range. *)
Fixpoint store (i : nat) (v : Q) (a : list Q) : list Q :=
  match a, i with
  | [], _ => []
  | _ :: rest, O => v :: rest
  | x :: rest, S i' => x :: store i' v rest
  end.

(** [audioContext.createBuffer(1, length, rate)]: silence.  A length of
    zero is outside the nominal range of the argument and throws a
    [NotSupportedError]; the only rate the code passes, 24000, lies in
    the range every implementation accepts. *)
Definition createBuffer (len : nat) (rate : Z) : exc AudioBuffer :=
  match len with
  | O => Throw (Error "NotSupportedError")
  | S _ => Ok {| channelData := repeat 0%Q len; sampleRate := rate |}
  end.

End WebAudio.

Import WebAudio.

Module TypedArray.

(** Reading two bytes as a little-endian signed 16-bit integer. *)
Definition int16_of_bytes (lo hi : Z) : Z :=
  let u := lo + 256 * hi in
  if 32768 <=? u then u - 65536 else u.

Fixpoint int16_pairs (bytes : list Z) : option (list Z) :=
  match bytes with
  | [] => Some []
  | lo :: hi :: rest =>
      match int16_pairs rest with
      | Some l => Some (int16_of_bytes lo hi :: l)
      | None => None
      end
  | _ :: [] => None
  end.

(** [new Int16Array(bytes.buffer)]: a [RangeError] unless the byte
    length is a multiple of two. *)
Definition Int16Array_of_buffer (bytes : list Z) : exc (list Z) :=
  match int16_pairs bytes with
  | Some l => Ok l
  | None =>
      Throw (Error "byte length of Int16Array should be a multiple of 2")
  end.

(** Storing a number into an [Int16Array] element and viewing the
    element's two bytes, low byte first. *)
Definition bytes_of_int16 (v : Z) : list Z :=
  let u := v mod 65536 in
  [u mod 256; u / 256].

End TypedArray.

(* ===================================================================== *)
(** ** services/audioUtils.ts *)
(* ===================================================================== *)

Module AudioUtils.

(** [Math.round]: the nearest integer, halves towards plus infinity. *)
Definition Math_round (y : Q) : Z := Qfloor (y + (1 # 2))%Q.

Definition clamp_int16 (v : Z) : Z := Z.max (-32768) (Z.min 32767 v).

(** Modelled from the spec: the sample conversion of [encodeForUpload]
    ([createPcmBlob] in [audioUtils.ts], a file that is not part of the
    sources at hand): [round(sample * 32767)], clamped to the 16-bit
    signed range. *)
Definition encode_sample (x : Q) : Z :=
  clamp_int16 (Math_round (x * 32767)%Q).

(** Modelled from the spec: the byte frame of [encodeForUpload]
    ([createPcmBlob]) before its base64 framing: every sample as a
    16-bit signed integer, packed little-endian. *)
Definition encode_pcm (samples : list Q) : list Z :=
  flat_map (fun x => TypedArray.bytes_of_int16 (encode_sample x)) samples.

Definition sextet (c : ascii) : option Z :=
  let n := Z.of_N (N_of_ascii c) in
  if (65 <=? n) && (n <=? 90) then Some (n - 65)
  else if (97 <=? n) && (n <=? 122) then Some (n - 71)
  else if (48 <=? n) && (n <=? 57) then Some (n + 4)
  else if n =? 43 then Some 62
  else if n =? 47 then Some 63
  else None.

Definition is_pad (c : ascii) : bool := Ascii.eqb c "="%char.

Definition quad_bytes (a b c d : Z) : list Z :=
  [a * 4 + b / 16; (b mod 16) * 16 + c / 4; (c mod 4) * 64 + d].

Fixpoint base64_quads (l : list ascii) : option (list Z) :=
  match l with
  | [] => Some []
  | a :: b :: c :: d :: rest =>
      match sextet a, sextet b with
      | Some sa, Some sb =>
          match rest with
          | [] =>
              if is_pad c && is_pad d then Some (firstn 1 (quad_bytes sa sb 0 0))
              else if is_pad d then
                match sextet c with
                | Some sc => Some (firstn 2 (quad_bytes sa sb sc 0))
                | None => None
                end
              else
                match sextet c, sextet d with
                | Some sc, Some sd => Some (quad_bytes sa sb sc sd)
                | _, _ => None
                end
          | _ =>
              match sextet c, sextet d, base64_quads rest with
              | Some sc, Some sd, Some tl => Some (quad_bytes sa sb sc sd ++ tl)
              | _, _, _ => None
              end
          end
      | _, _ => None
      end
  | _ => None
  end.

(** Modelled from the spec: [decodeFromNetwork] ([decodeAudio] in
    [audioUtils.ts], absent from the sources at hand): the inverse of
    the base64 framing; malformed input fails with a decode error. *)
Definition decodeAudio (base64 : string) : exc (list Z) :=
  match base64_quads (list_ascii_of_string base64) with
  | Some bytes => Ok bytes
  | None => Throw (Error "The string to be decoded is not correctly encoded.")
  end.

(** Modelled from the spec: [bytesToAudioBuffer] ([decodePcmAudioData]
    in [audioUtils.ts], absent from the sources at hand): the bytes
    read as little-endian 16-bit signed integers, each divided by
    32768, in one channel at the given rate; an odd number of bytes
    fails with a framing error. *)
Definition decodePcmAudioData (bytes : list Z) (ctx : AudioContext)
    (rate : Z) : exc AudioBuffer :=
  match TypedArray.int16_pairs bytes with
  | Some ints =>
      Ok {| channelData := map (fun v => (inject_Z v / 32768)%Q) ints;
            sampleRate := rate |}
  | None => Throw (Error "framing error: odd number of bytes")
  end.

End AudioUtils.

(* ===================================================================== *)
(** ** services/geminiService.ts: speech synthesis *)
(* ===================================================================== *)

Module Speech.

(** [response.candidates?.[0]?.content?.parts?.[0]?.inlineData?.data] *)
Definition inlineAudioOf (response : GenerateContentResponse)
  : option string :=
  match candidates response with
  | Some (c :: _) =>
      match content c with
      | Some ct =>
          match parts ct with
          | Some (p :: _) =>
              match inlineData p with
              | Some d => data d
              | None => None
              end
          | _ => None
          end
      | None => None
      end
  | _ => None
  end.

(** The conversion of one received 16-bit integer: [v / 32768.0]. *)
Definition decode_sample (v : Z) : Q := (inject_Z v / 32768)%Q.

(** The [for] loop of [generateSpeech]; [n] counts the iterations that
    remain and [i] is the loop index. *)
Fixpoint fill (n : nat) (i : nat) (dataInt16 : list Z)
    (channelData : list Q) : list Q :=
  match n with
  | O => channelData
  | S n' =>
      fill n' (S i) dataInt16
        (store i (decode_sample (nth i dataInt16 0)) channelData)
  end.

(** The tail of [generateSpeech]: the received bytes viewed as 16-bit
    integers, and the buffer whose channel the loop fills. *)
Definition pcmToBuffer (audioBytes : list Z) : exc AudioBuffer :=
  (dataInt16 <- TypedArray.Int16Array_of_buffer audioBytes ;;
   buffer <- createBuffer (List.length dataInt16) 24000 ;;
   let channelData :=
     fill (List.length dataInt16) 0 dataInt16 (channelData buffer) in
   ret {| channelData := channelData; sampleRate := sampleRate buffer |})%exc.

Section GenerateSpeech.

(** The outcome of [ai.models.generateContent] for a text, of
    constructing an [AudioContext] at a rate, and [decodeAudio] of
    [audioUtils.ts]. *)
Variable generateContent : string -> exc GenerateContentResponse.
Variable newAudioContext : Z -> exc AudioContext.
Variable decodeAudio : string -> exc (list Z).

Definition generateSpeech (text : string) : exc (option AudioBuffer) :=
  try_catch
    (response <- generateContent text ;;
     let base64Audio := inlineAudioOf response in
     if negb (truthy base64Audio) then ret None
     else
       audioContext <- newAudioContext 24000 ;;
       audioBytes <- decodeAudio (or_default base64Audio "") ;;
       buffer <- pcmToBuffer audioBytes ;;
       ret (Some buffer))%exc
    (fun error => ret None).

End GenerateSpeech.

End Speech.

(* ===================================================================== *)
(** ** services/liveService.ts *)
(* ===================================================================== *)

Module Live.

Record MediaStream : Type := mkStream {
  tracks : list nat
}.

(** Calls that leave the session object: the caller's callbacks and
    the operations on the audio graph and the microphone. *)
Inductive Effect : Type :=
| CallOnOpen
| CallOnError (e : error)
| CallOnClose
| CallOnAudioData (buffer : AudioBuffer)
| InputGraphConnect
| ProcessorDisconnect
| SourceDisconnect
| TrackStop (track : nat)
| ContextClose (ctx : AudioContext)
| BufferSourceStart (when : Q) (buffer : AudioBuffer).

(** The private fields of [class LiveSession]. *)
Record LiveSession : Type := mkLive {
  inputContext : option AudioContext;
  outputContext : option AudioContext;
  stream : option MediaStream;
  processor : option unit;
  source : option unit;
  nextStartTime : Q;
  session : option unit;
  isActive : bool
}.

(** The field initialisers, run by [new LiveSession(callbacks)]. *)
Definition new : LiveSession :=
  {| inputContext := None; outputContext := None; stream := None;
     processor := None; source := None; nextStartTime := 0%Q;
     session := None; isActive := false |}.

Definition set_inputContext (v : option AudioContext) (s : LiveSession) :=
  mkLive v (outputContext s) (stream s) (processor s) (source s)
         (nextStartTime s) (session s) (isActive s).
Definition set_outputContext (v : option AudioContext) (s : LiveSession) :=
  mkLive (inputContext s) v (stream s) (processor s) (source s)
         (nextStartTime s) (session s) (isActive s).
Definition set_stream (v : option MediaStream) (s : LiveSession) :=
  mkLive (inputContext s) (outputContext s) v (processor s) (source s)
         (nextStartTime s) (session s) (isActive s).
Definition set_processor (v : option unit) (s : LiveSession) :=
  mkLive (inputContext s) (outputContext s) (stream s) v (source s)
         (nextStartTime s) (session s) (isActive s).
Definition set_source (v : option unit) (s : LiveSession) :=
  mkLive (inputContext s) (outputContext s) (stream s) (processor s) v
         (nextStartTime s) (session s) (isActive s).
Definition set_nextStartTime (v : Q) (s : LiveSession) :=
  mkLive (inputContext s) (outputContext s) (stream s) (processor s)
         (source s) v (session s) (isActive s).
Definition set_session (v : option unit) (s : LiveSession) :=
  mkLive (inputContext s) (outputContext s) (stream s) (processor s)
         (source s) (nextStartTime s) v (isActive s).
Definition set_isActive (v : bool) (s : LiveSession) :=
  mkLive (inputContext s) (outputContext s) (stream s) (processor s)
         (source s) (nextStartTime s) (session s) v.

(** A method body: it reads and writes [this], may throw, and leaves a
    list of effects, in the order they were made. *)
Definition M (A : Type) : Type :=
  LiveSession -> exc A * LiveSession * list Effect.

Definition mret {A} (a : A) : M A := fun s => (Ok a, s, []).

Definition mbind {A B} (c : M A) (k : A -> M B) : M B :=
  fun s =>
    match c s with
    | (Ok a, s1, e1) =>
        match k a s1 with
        | (r, s2, e2) => (r, s2, e1 ++ e2)
        end
    | (Throw e, s1, e1) => (Throw e, s1, e1)
    end.

Definition this : M LiveSession := fun s => (Ok s, s, []).
Definition assign (f : LiveSession -> LiveSession) : M unit :=
  fun s => (Ok tt, f s, []).
Definition emit (e : Effect) : M unit := fun s => (Ok tt, s, [e]).
Definition lift {A} (c : exc A) : M A := fun s => (c, s, []).

Definition mtry {A} (c : M A) (h : error -> M A) : M A :=
  fun s =>
    match c s with
    | (Ok a, s1, e1) => (Ok a, s1, e1)
    | (Throw e, s1, e1) =>
        match h e s1 with
        | (r, s2, e2) => (r, s2, e1 ++ e2)
        end
    end.

Definition result {A} (r : exc A * LiveSession * list Effect) : exc A :=
  fst (fst r).
Definition state {A} (r : exc A * LiveSession * list Effect) : LiveSession :=
  snd (fst r).
Definition effects {A} (r : exc A * LiveSession * list Effect)
  : list Effect := snd r.

End Live.

Declare Scope live_scope.
Delimit Scope live_scope with live.
Notation "x <- c ;; k" := (Live.mbind c (fun x => k))
  (at level 61, c at next level, right associativity) : live_scope.
Notation "c ;; k" := (Live.mbind c (fun _ => k))
  (at level 61, right associativity) : live_scope.

Module LiveService.

Import Live.
Local Open Scope live_scope.

Record ServerContent : Type := mkServerContent {
  modelTurn : option Content;
  interrupted : option bool
}.

Record LiveServerMessage : Type := mkLiveMessage {
  serverContent : option ServerContent
}.

(** [message.serverContent?.modelTurn?.parts[0]?.inlineData?.data]:
    [parts] is indexed without [?.], so a model turn without parts
    throws a [TypeError]. *)
Definition base64AudioOf (message : LiveServerMessage)
  : exc (option string) :=
  match serverContent message with
  | None => Ok None
  | Some sc =>
      match modelTurn sc with
      | None => Ok None
      | Some turn =>
          match parts turn with
          | None =>
              Throw (Error "Cannot read properties of undefined (reading '0')")
          | Some [] => Ok None
          | Some (p :: _) =>
              match inlineData p with
              | Some d => Ok (data d)
              | None => Ok None
              end
          end
      end
  end.

(** [message.serverContent?.interrupted] as a condition. *)
Definition interruptedOf (message : LiveServerMessage) : bool :=
  match serverContent message with
  | Some sc =>
      match interrupted sc with
      | Some b => b
      | None => false
      end
  | None => false
  end.

Definition cleanup : M unit :=
  s <- this ;;
  match processor s with
  | Some _ => emit ProcessorDisconnect ;; assign (set_processor None)
  | None => mret tt
  end ;;
  s <- this ;;
  match source s with
  | Some _ => emit SourceDisconnect ;; assign (set_source None)
  | None => mret tt
  end ;;
  s <- this ;;
  match stream s with
  | Some st =>
      (fun s0 => (Ok tt, s0, map TrackStop (tracks st))) ;;
      assign (set_stream None)
  | None => mret tt
  end ;;
  s <- this ;;
  match inputContext s with
  | Some c => emit (ContextClose c) ;; assign (set_inputContext None)
  | None => mret tt
  end ;;
  s <- this ;;
  match outputContext s with
  | Some c => emit (ContextClose c) ;; assign (set_outputContext None)
  | None => mret tt
  end.

Definition disconnect : M unit :=
  assign (set_isActive false) ;;
  cleanup.

(** [currentTime] is the value [this.outputContext.currentTime] has
    when the method runs. *)
Definition playAudio (buffer : AudioBuffer) (currentTime : Q) : M unit :=
  s <- this ;;
  match outputContext s with
  | None => mret tt
  | Some _ =>
      assign (fun s => set_nextStartTime (Qmax (nextStartTime s) currentTime) s) ;;
      s <- this ;;
      emit (BufferSourceStart (nextStartTime s) buffer) ;;
      assign (fun s => set_nextStartTime (nextStartTime s + duration buffer)%Q s)
  end.

Section WithAudioUtils.

(** [decodeAudio] and [decodePcmAudioData] of [audioUtils.ts]. *)
Variable decodeAudio : string -> exc (list Z).
Variable decodePcmAudioData :
  list Z -> AudioContext -> Z -> exc AudioBuffer.

Definition handleServerMessage (message : LiveServerMessage)
    (currentTime : Q) : M unit :=
  base64Audio <- lift (base64AudioOf message) ;;
  s <- this ;;
  match truthy base64Audio, outputContext s with
  | true, Some ctx =>
      audioBytes <- lift (decodeAudio (or_default base64Audio "")) ;;
      audioBuffer <- lift (decodePcmAudioData audioBytes ctx 24000) ;;
      playAudio audioBuffer currentTime ;;
      emit (CallOnAudioData audioBuffer)
  | _, _ => mret tt
  end ;;
  if interruptedOf message
  then assign (set_nextStartTime 0%Q)
  else mret tt.

End WithAudioUtils.

(** [startAudioInput]: the capture graph; the chunks it later sends
    upstream do not touch the fields modelled here. *)
Definition startAudioInput : M unit :=
  s <- this ;;
  match inputContext s, stream s with
  | Some _, Some _ =>
      assign (set_source (Some tt)) ;;
      assign (set_processor (Some tt)) ;;
      emit InputGraphConnect
  | _, _ => mret tt
  end.

(** The four callbacks handed to [liveClient.connect]. *)
Definition onopen : M unit :=
  assign (set_isActive true) ;;
  emit CallOnOpen ;;
  startAudioInput.

Definition onerror (err : error) : M unit :=
  emit (CallOnError err).

Definition onclose : M unit :=
  assign (set_isActive false) ;;
  emit CallOnClose ;;
  cleanup.

(** [connect]: the outcomes of constructing the two audio contexts, of
    [getUserMedia] and of [liveClient.connect] are given. *)
Definition connect (newAudioContext : Z -> exc AudioContext)
    (getUserMedia : exc MediaStream) (liveConnect : exc unit) : M unit :=
  mtry
    (ic <- lift (newAudioContext 16000) ;;
     assign (set_inputContext (Some ic)) ;;
     oc <- lift (newAudioContext 24000) ;;
     assign (set_outputContext (Some oc)) ;;
     st <- lift getUserMedia ;;
     assign (set_stream (Some st)) ;;
     sess <- lift liveConnect ;;
     assign (set_session (Some sess)))
    (fun error =>
       emit (CallOnError error) ;;
       cleanup).

(** What arrives at an open session, one event at a time. *)
Inductive Inbound : Type :=
| Message (message : LiveServerMessage) (currentTime : Q).

End LiveService.

(* ===================================================================== *)
(** ** App.tsx: the conversation view controller *)
(* ===================================================================== *)

Module App.

Import GeminiService.

(** [String.prototype.trim].  A string holds its text as UTF-8 bytes, so
    the white space and line terminators that [trim] strips are those of
    one byte (TAB, LF, VT, FF, CR, SP), the no-break space U+00A0 of two
    bytes, and those of three bytes: U+1680, U+2000 to U+200A, U+2028,
    U+2029, U+202F, U+205F, U+3000 and U+FEFF. *)
Definition is_space (c : ascii) : bool :=
  let n := N_of_ascii c in
  ((9 <=? n)%N && (n <=? 13)%N) || (n =? 32)%N.

(** The bytes C2 A0. *)
Definition is_space2 (a b : ascii) : bool :=
  (N_of_ascii a =? 194)%N && (N_of_ascii b =? 160)%N.

Definition is_space3 (a b c : ascii) : bool :=
  let x := N_of_ascii a in
  let y := N_of_ascii b in
  let z := N_of_ascii c in
  ((x =? 225) && (y =? 154) && (z =? 128))%N ||
  ((x =? 226)%N && (y =? 128)%N &&
   (((128 <=? z)%N && (z <=? 138)%N) || (z =? 168)%N || (z =? 169)%N ||
    (z =? 175)%N)) ||
  ((x =? 226) && (y =? 129) && (z =? 159))%N ||
  ((x =? 227) && (y =? 128) && (z =? 128))%N ||
  ((x =? 239) && (y =? 187) && (z =? 191))%N.

(** White space stripped from the front; [two] and [three] recognise the
    white space of two and of three bytes in the order the bytes are
    met. *)
Fixpoint stripFront (two : ascii -> ascii -> bool)
    (three : ascii -> ascii -> ascii -> bool) (s : string) : string :=
  match s with
  | EmptyString => EmptyString
  | String a rest =>
      if is_space a then stripFront two three rest
      else
        match rest with
        | String b rest2 =>
            if two a b then stripFront two three rest2
            else
              match rest2 with
              | String c rest3 =>
                  if three a b c then stripFront two three rest3 else s
              | EmptyString => s
              end
        | EmptyString => s
        end
  end.

Definition trimStart (s : string) : string :=
  stripFront is_space2 is_space3 s.

Definition reverse (s : string) : string :=
  string_of_list_ascii (rev (list_ascii_of_string s)).

(** The end is stripped on the reversed string, where the bytes of a
    character are met last byte first. *)
Definition trimEnd (s : string) : string :=
  reverse
    (stripFront (fun a b => is_space2 b a) (fun a b c => is_space3 c b a)
       (reverse s)).

Definition trim (s : string) : string := trimEnd (trimStart s).

(** [n.toString()] for the integer a timestamp is. *)
Definition toString (n : Z) : string := NilZero.string_of_int (Z.to_int n).

Definition FALLBACK_REPLY : string :=
  "I apologize, but I couldn't generate a response. Please try again.".

Definition CONNECTION_TROUBLE : string :=
  "I'm having trouble connecting right now. Please check your internet connection and try again.".

(** The state of the component that the text chat reads and writes:
    the [useState] cells and the [chatSessionRef] cell. *)
Record AppState : Type := mkApp {
  messages : list Message;
  inputValue : string;
  isLoading : bool;
  isInitializing : bool;
  mode : ModelMode;
  chatSessionRef : option Chat
}.

Definition initial : AppState :=
  {| messages := []; inputValue := ""; isLoading := false;
     isInitializing := true; mode := standard; chatSessionRef := None |}.

Definition setMessages (f : list Message -> list Message) (s : AppState) :=
  mkApp (f (messages s)) (inputValue s) (isLoading s) (isInitializing s)
        (mode s) (chatSessionRef s).
Definition setInputValue (v : string) (s : AppState) :=
  mkApp (messages s) v (isLoading s) (isInitializing s) (mode s)
        (chatSessionRef s).
Definition setIsLoading (v : bool) (s : AppState) :=
  mkApp (messages s) (inputValue s) v (isInitializing s) (mode s)
        (chatSessionRef s).
Definition setIsInitializing (v : bool) (s : AppState) :=
  mkApp (messages s) (inputValue s) (isLoading s) v (mode s)
        (chatSessionRef s).
Definition set_mode (v : ModelMode) (s : AppState) :=
  mkApp (messages s) (inputValue s) (isLoading s) (isInitializing s) v
        (chatSessionRef s).
Definition set_chatSessionRef (v : option Chat) (s : AppState) :=
  mkApp (messages s) (inputValue s) (isLoading s) (isInitializing s)
        (mode s) v.

(** [initChat]; [createChatSession] only builds its arguments, so the
    catch block has nothing to catch. *)
Definition initChat (s : AppState) : AppState :=
  let s := set_chatSessionRef (Some (createChatSession (mode s))) s in
  let s := setMessages (fun _ => []) s in
  setIsInitializing false s.

(** [setMode(m)] from one of the three mode buttons.  A new mode gives
    [initChat] a new identity ([useCallback] on [mode]), and the effect
    that depends on it runs [initChat]; setting the mode the component
    already has changes nothing. *)
Definition setMode (m : ModelMode) (s : AppState) : AppState :=
  if ModelMode_eqb m (mode s) then s
  else initChat (set_mode m s).

(** The first render: the same effect runs once. *)
Definition mount : AppState := initChat initial.

(** [handleReset]; [confirmed] is the answer to [window.confirm]. *)
Definition handleReset (confirmed : bool) (s : AppState) : AppState :=
  if confirmed then initChat s else s.

Definition userMessage (textToSend : string) (now : Z) : Message :=
  {| id := toString now; role := user; text := textToSend;
     timestamp := now; isError := None; sources := None |}.

Definition botMessage (response : ChatReply) (now : Z) : Message :=
  {| id := toString (now + 1); role := model;
     text := or_default (reply_text response) FALLBACK_REPLY;
     timestamp := now; isError := None;
     sources := Some (reply_sources response) |}.

Definition errorMessage (now : Z) : Message :=
  {| id := toString (now + 1); role := model; text := CONNECTION_TROUBLE;
     timestamp := now; isError := Some true; sources := None |}.

(** An outbound call [sendMessageToGemini(chat, text)] that has been
    issued and has not settled. *)
Definition Request : Type := (Chat * string)%type.

(** [handleSendMessage] up to its [await]: the guard, the three state
    updates, and the request it issues, if any.  The handler reads the
    state of the latest render; [now] is the clock. *)
Definition handleSendMessage (textOverride : option string) (now : Z)
    (s : AppState) : AppState * option Request :=
  let textToSend := or_default textOverride (trim (inputValue s)) in
  match chatSessionRef s with
  | Some chat =>
      if String.eqb textToSend "" || isLoading s then (s, None)
      else
        let s := setMessages (fun prev => prev ++ [userMessage textToSend now]) s in
        let s := setInputValue "" s in
        let s := setIsLoading true s in
        (s, Some (chat, textToSend))
  | None => (s, None)
  end.

(** [handleSendMessage] from its [await] on: [outcome] is what the
    awaited [sendMessageToGemini] call produced. *)
Definition handleSendMessage_resume (outcome : exc ChatReply) (now : Z)
    (s : AppState) : AppState :=
  let s :=
    match outcome with
    | Ok response => setMessages (fun prev => prev ++ [botMessage response now]) s
    | Throw error => setMessages (fun prev => prev ++ [errorMessage now]) s
    end in
  setIsLoading false s.

(** The component together with the requests that are in flight. *)
Record World : Type := mkWorld {
  app : AppState;
  inFlight : list Request
}.

Inductive Event : Type :=
| Send (textOverride : option string) (now : Z)
| Settle (sdk : exc GenerateContentResponse) (now : Z)
| Typed (value : string)
| ModeButton (m : ModelMode)
| ResetButton (confirmed : bool).

(** One event of the page.  [Settle] completes the oldest request in
    flight with the outcome [sdk] of [chat.sendMessage]. *)
Definition step (w : World) (ev : Event) : World :=
  match ev with
  | Send textOverride now =>
      match handleSendMessage textOverride now (app w) with
      | (s, Some req) => {| app := s; inFlight := inFlight w ++ [req] |}
      | (s, None) => {| app := s; inFlight := inFlight w |}
      end
  | Settle sdk now =>
      match inFlight w with
      | (chat, message) :: rest =>
          let outcome := sendMessageToGemini (fun _ _ => sdk) chat message in
          {| app := handleSendMessage_resume outcome now (app w);
             inFlight := rest |}
      | [] => w
      end
  | Typed value =>
      {| app := setInputValue value (app w); inFlight := inFlight w |}
  | ModeButton m =>
      {| app := setMode m (app w); inFlight := inFlight w |}
  | ResetButton confirmed =>
      {| app := handleReset confirmed (app w); inFlight := inFlight w |}
  end.

Definition run (w : World) (evs : list Event) : World :=
  fold_left step evs w.

Definition start : World := {| app := mount; inFlight := [] |}.

End App.

(* ===================================================================== *)
(** ** Vocabulary of the statements *)
(* ===================================================================== *)

Module Vocabulary.

(** The distinct elements of a list, each at the place of its first
    occurrence. *)
Fixpoint first_occurrences (l : list string) : list string :=
  match l with
  | [] => []
  | x :: rest =>
      x :: filter (fun y => negb (String.eqb x y)) (first_occurrences rest)
  end.

(** The last entry of a list of sources that has the locator [u]. *)
Definition last_with_uri (u : string) (l : list GroundingSource)
  : option GroundingSource :=
  find (fun s => String.eqb (uri s) u) (rev l).

(** The entries [sources.map(s => [s.uri, s])] handed to [new Map]. *)
Definition entries (sources : list GroundingSource)
  : list (string * GroundingSource) :=
  map (fun s => (uri s, s)) sources.

(** A response whose first candidate cites the given entries, one
    grounding chunk per entry, in order. *)
Definition response_citing (cited : list GroundingSource)
  : GenerateContentResponse :=
  {| response_text := None;
     candidates :=
       Some [ {| content := None;
                 groundingMetadata :=
                   Some {| groundingChunks :=
                     Some (map (fun e =>
                                  {| web := Some {| web_uri := Some (uri e);
                                                    web_title := Some (title e) |} |})
                               cited) |} |} ] |}.

(** A chunk lacks a web title or a web uri. *)
Definition lacks_field (chunk : GroundingChunk) : Prop :=
  GeminiService.chunk_uri chunk = None \/
  GeminiService.chunk_title chunk = None.

(** The playback starts among a list of effects, as pairs of the start
    time and the duration of the buffer, in the order they were made. *)
Fixpoint scheduled (effs : list Live.Effect) : list (Q * Q) :=
  match effs with
  | [] => []
  | Live.BufferSourceStart when buffer :: rest =>
      (when, duration buffer) :: scheduled rest
  | _ :: rest => scheduled rest
  end.

(** No entry of a schedule starts before the entry before it ends. *)
Definition no_overlap (sched : list (Q * Q)) : Prop :=
  forall (i : nat) (a b : Q * Q),
    nth_error sched i = Some a ->
    nth_error sched (S i) = Some b ->
    (fst a + snd a <= fst b)%Q.

Section Delivery.

Variable decodeAudio : string -> exc (list Z).
Variable decodePcmAudioData :
  list Z -> AudioContext -> Z -> exc AudioBuffer.

(** The inbound events handled one after the other; a handler that
    throws rejects its own promise only, and the next event finds the
    session as that handler left it.  The result is the final session
    and all effects in order. *)
Fixpoint deliver (events : list LiveService.Inbound)
    (s : Live.LiveSession) : Live.LiveSession * list Live.Effect :=
  match events with
  | [] => (s, [])
  | LiveService.Message message currentTime :: rest =>
      let r := LiveService.handleServerMessage
                 decodeAudio decodePcmAudioData message currentTime s in
      let (s', effs) := deliver rest (Live.state r) in
      (s', Live.effects r ++ effs)
  end.

Definition carries_interrupt (ev : LiveService.Inbound) : bool :=
  match ev with
  | LiveService.Message message _ => LiveService.interruptedOf message
  end.

End Delivery.

(** A schedule in which every entry starts at or after [cursor] and
    each entry moves the cursor to its own end. *)
Fixpoint chained (cursor : Q) (sched : list (Q * Q)) : Prop :=
  match sched with
  | [] => True
  | (start, d) :: rest => (cursor <= start)%Q /\ chained (start + d)%Q rest
  end.

(** What holds of the page after any events: a request is in flight
    only while the loading flag is set, and never more than one. *)
Definition idle_or_one (w : App.World) : Prop :=
  (List.length (App.inFlight w) <= 1)%nat /\
  (App.isLoading (App.app w) = false -> App.inFlight w = []).

(** Whether a cleanup has released everything a session can hold. *)
Definition released (s : Live.LiveSession) : bool :=
  match Live.processor s, Live.source s, Live.stream s,
        Live.inputContext s, Live.outputContext s with
  | None, None, None, None, None => true
  | _, _, _, _, _ => false
  end.

End Vocabulary.

Import Vocabulary.

(* ===================================================================== *)
(** ** Concrete sessions, messages and responses *)
(* ===================================================================== *)

Module Examples.

Import Live LiveService.

Definition contexts (rate : Z) : exc AudioContext :=
  Ok {| ctx_sampleRate := rate |}.

Definition microphone : MediaStream := {| tracks := [0%nat] |}.

(** A session after [connect] succeeded and [onopen] ran. *)
Definition open_session : LiveSession :=
  state (onopen (state (connect contexts (Ok microphone) (Ok tt) new))).

Definition audio_part (payload : string) : Content :=
  {| parts := Some [ {| inlineData := Some {| data := Some payload |} |} ] |}.

(** An audio message of two samples of silence. *)
Definition audio_message : LiveServerMessage :=
  {| serverContent :=
       Some {| modelTurn := Some (audio_part "AAAAAA==");
               interrupted := None |} |}.

Definition interrupt_message : LiveServerMessage :=
  {| serverContent :=
       Some {| modelTurn := None; interrupted := Some true |} |}.

(** Three messages that arrive within one quantum of the output clock:
    audio, an interruption, audio. *)
Definition interrupted_playback : list Inbound :=
  [ Message audio_message 1%Q;
    Message interrupt_message 1%Q;
    Message audio_message 1%Q ].

Definition steady_playback : list Inbound :=
  [ Message audio_message 1%Q; Message audio_message 1%Q ].

Definition web_chunk (u t : option string) : GroundingChunk :=
  {| web := Some {| web_uri := u; web_title := t |} |}.

Definition grounded_response : GenerateContentResponse :=
  {| response_text := Some "Vitamin D supports bone health.";
     candidates :=
       Some [ {| content := None;
                 groundingMetadata :=
                   Some {| groundingChunks :=
                     Some [ web_chunk (Some "https://a.example") (Some "First");
                            {| web := None |};
                            web_chunk (Some "https://b.example") (Some "B");
                            web_chunk (Some "https://a.example") (Some "Second");
                            web_chunk (Some "https://c.example") None ] |} |} ] |}.

Definition answering (_ : Chat) (_ : string) : exc GenerateContentResponse :=
  Ok grounded_response.

Definition failing (_ : Chat) (_ : string) : exc GenerateContentResponse :=
  Throw (Error "API key not valid").

(** The page after a first message was sent at time 1000. *)
Definition waiting : App.World :=
  App.run App.start [App.Send (Some "What is a fever?") 1000].

Definition tts_failing (_ : string) : exc GenerateContentResponse :=
  Throw (Error "503 Service Unavailable").

Definition tts_silent (_ : string) : exc GenerateContentResponse :=
  Ok {| response_text := None; candidates := Some [] |}.

(** A synthesis response of two samples: 32767 and -32768. *)
Definition tts_audio (_ : string) : exc GenerateContentResponse :=
  Ok {| response_text := None;
        candidates :=
          Some [ {| content := Some (audio_part "/38AgA==");
                    groundingMetadata := None |} ] |}.

(** A 32-bit float: 1 - 7 * 2^-18. *)
Definition loud_sample : Q := 262137 # 262144.

End Examples.

(* ===================================================================== *)
(** ** services/liveService.ts: the capture callback *)
(* ===================================================================== *)

Module Capture.

Import Live.

(** The [{ data, mimeType }] value [createPcmBlob] returns. *)
Record Blob : Type := mkBlob {
  blob_data : string;
  blob_mimeType : string
}.

Section WithCreatePcmBlob.

(** [createPcmBlob] of [audioUtils.ts]. *)
Variable createPcmBlob : list Q -> Blob.

(** The body of [processor.onaudioprocess] up to [sessionPromise.then]:
    the blob whose send it queues on the promise, if any. *)
Definition onaudioprocess (inputData : list Q) (s : LiveSession)
  : option Blob :=
  if negb (isActive s) then None
  else
    let pcmBlob := createPcmBlob inputData in
    Some pcmBlob.

(** The callback given to [sessionPromise.then], run on the session as it
    is when the promise delivers: the media passed to
    [session.sendRealtimeInput]. *)
Definition thenSend (pcmBlob : Blob) (s : LiveSession) : list Blob :=
  if isActive s then [pcmBlob] else [].

End WithCreatePcmBlob.

End Capture.

(* ===================================================================== *)
(** ** App.tsx: the send button, the prompts and the voice overlay *)
(* ===================================================================== *)

Module AppView.

Import App Live LiveService.

(** constants.ts *)
Definition SUGGESTED_PROMPTS : list string :=
  [ "What are the benefits of Vitamin D?";
    "Tips for better sleep hygiene";
    "Explain the difference between cold and flu";
    "How much water should I drink daily?" ].

(** The [disabled] attribute of the send button:
    [!inputValue.trim() || isLoading]. *)
Definition sendDisabled (s : AppState) : bool :=
  String.eqb (trim (inputValue s)) "" || isLoading s.

(** The condition of the empty state, where the prompts are offered:
    [messages.length === 0 && !isInitializing]. *)
Definition showsPrompts (s : AppState) : bool :=
  (List.length (messages s) =? 0)%nat && negb (isInitializing s).

(** [handleKeyDown]: [key] is [e.key] and [shiftKey] is [e.shiftKey]. *)
Definition handleKeyDown (key : string) (shiftKey : bool) (now : Z)
    (s : AppState) : AppState * option Request :=
  if String.eqb key "Enter" && negb shiftKey
  then handleSendMessage None now s
  else (s, None).








End AppView.

(* ===================================================================== *)
(** ** components/ChatBubble.tsx *)
(* ===================================================================== *)

Module ChatBubble.

(** The state cells of one bubble. *)
Record BubbleState : Type := mkBubble {
  isCopied : bool;
  isSpeaking : bool;
  isPlaying : bool
}.


Definition setIsCopied (b : bool) (s : BubbleState) : BubbleState :=
  mkBubble b (isSpeaking s) (isPlaying s).

(** [const isUser = message.role === 'user'] *)
Definition isUser (message : Message) : bool :=
  match role message with
  | user => true
  | model => false
  end.

Definition flagged (message : Message) : bool :=
  match isError message with
  | Some b => b
  | None => false
  end.

(** The condition under which the sources panel is rendered:
    [!isUser && message.sources && message.sources.length > 0]. *)
Definition showsSources (message : Message) : bool :=
  negb (isUser message) &&
  match sources message with
  | Some l => (0 <? List.length l)%nat
  | None => false
  end.

(** The condition under which the share and speak buttons are rendered:
    [!isUser && !message.isError]. *)
Definition showsActions (message : Message) : bool :=
  negb (isUser message) && negb (flagged message).









End ChatBubble.

(* ===================================================================== *)
(** ** Vocabulary of the further statements *)
(* ===================================================================== *)

Module Vocabulary2.

(** The resources a session holds, as the calls that release them, in
    the order [cleanup] visits the fields. *)
Definition releases (s : Live.LiveSession) : list Live.Effect :=
  (match Live.processor s with Some _ => [Live.ProcessorDisconnect] | None => [] end) ++
  (match Live.source s with Some _ => [Live.SourceDisconnect] | None => [] end) ++
  (match Live.stream s with
   | Some st => map Live.TrackStop (Live.tracks st)
   | None => []
   end) ++
  (match Live.inputContext s with Some c => [Live.ContextClose c] | None => [] end) ++
  (match Live.outputContext s with Some c => [Live.ContextClose c] | None => [] end).



(** The session with its five resource fields set to null. *)
Definition dropped (s : Live.LiveSession) : Live.LiveSession :=
  Live.set_outputContext None
    (Live.set_inputContext None
       (Live.set_stream None
          (Live.set_source None (Live.set_processor None s)))).

(** The events that leave the transcript in place. *)
Definition keeps_transcript (ev : App.Event) : bool :=
  match ev with
  | App.ModeButton _ | App.ResetButton _ => false
  | _ => true
  end.

(** The string of the given bytes. *)
Definition of_bytes (l : list N) : string :=
  string_of_list_ascii (map ascii_of_N l).

(** The white space and line terminators of ECMAScript, each as the
    UTF-8 bytes of the character: TAB, LF, VT, FF, CR, SP, U+00A0,
    U+1680, U+2000 to U+200A, U+2028, U+2029, U+202F, U+205F, U+3000,
    U+FEFF. *)
Definition WHITE_SPACE : list string :=
  map of_bytes
    [ [9]; [10]; [11]; [12]; [13]; [32]; [194; 160]; [225; 154; 128];
      [226; 128; 128]; [226; 128; 129]; [226; 128; 130]; [226; 128; 131];
      [226; 128; 132]; [226; 128; 133]; [226; 128; 134]; [226; 128; 135];
      [226; 128; 136]; [226; 128; 137]; [226; 128; 138];
      [226; 128; 168]; [226; 128; 169]; [226; 128; 175];
      [226; 129; 159]; [227; 128; 128]; [239; 187; 191] ]%N.

(** [s] without the prefix [p], when it starts with [p]. *)
Fixpoint strip_prefix (p s : string) : option string :=
  match p, s with
  | EmptyString, _ => Some s
  | String a p', String b s' =>
      if Ascii.eqb a b then strip_prefix p' s' else None
  | String _ _, EmptyString => None
  end.

(** A text that is a sequence of white-space characters and nothing
    else; [n] bounds the number of characters. *)
Fixpoint blank_upto (n : nat) (s : string) : bool :=
  match s with
  | EmptyString => true
  | String _ _ =>
      match n with
      | O => false
      | S n' =>
          existsb
            (fun ws =>
               match strip_prefix ws s with
               | Some rest => blank_upto n' rest
               | None => false
               end)
            WHITE_SPACE
      end
  end.

(** A string made of white space only. *)
Definition blank (s : string) : bool := blank_upto (String.length s) s.

(** A byte. *)
Definition is_byte (b : Z) : Prop := 0 <= b < 256.


(** The page is loading exactly while one request is in flight. *)
Definition loading_iff_in_flight (w : App.World) : Prop :=
  (App.isLoading (App.app w) = true /\ exists req, App.inFlight w = [req]) \/
  (App.isLoading (App.app w) = false /\ App.inFlight w = []).

End Vocabulary2.

Import Vocabulary2.

(* ===================================================================== *)
(** ** Deduplication of citations *)
(* ===================================================================== *)

Module MapFacts.

Import JsMap.

Section WithValue.
Context {V : Type}.
Implicit Types (m : JsMap.t V) (k : string) (v : V).

Lemma keys_set m k v :
  keys (set m k v) = if in_dec string_dec k (keys m) then keys m
                     else keys m ++ [k].
Proof.
  unfold keys.
  induction m as [|[k' v'] rest IH]; simpl.
  - reflexivity.
  - destruct (String.eqb_spec k' k) as [->|Hne]; simpl.
    + destruct (string_dec k k); [|congruence].
      reflexivity.
    + rewrite IH.
      destruct (string_dec k' k); [congruence|].
      destruct (in_dec string_dec k (map fst rest)); reflexivity.
Qed.

Lemma get_set m k v k' :
  get (set m k v) k' = if String.eqb k k' then Some v else get m k'.
Proof.
  induction m as [|[k0 v0] rest IH]; simpl.
  - reflexivity.
  - destruct (String.eqb_spec k0 k) as [->|Hne]; simpl.
    + destruct (String.eqb k k'); reflexivity.
    + rewrite IH.
      destruct (String.eqb_spec k0 k') as [->|Hne'].
      * destruct (String.eqb_spec k k'); [congruence|reflexivity].
      * reflexivity.
Qed.

Lemma of_entries_snoc (l : list (string * V)) kv :
  of_entries (l ++ [kv]) = set (of_entries l) (fst kv) (snd kv).
Proof. unfold of_entries. rewrite fold_left_app. reflexivity. Qed.

Lemma set_keyed (f : V -> string) m k v :
  Forall (fun kv => fst kv = f (snd kv)) m -> k = f v ->
  Forall (fun kv => fst kv = f (snd kv)) (set m k v).
Proof.
  intros Hm Hk. induction Hm as [|[k' v'] rest Hx Hrest IH]; simpl.
  - constructor; [exact Hk|constructor].
  - destruct (String.eqb_spec k' k) as [->|Hne].
    + constructor; [exact Hk|exact Hrest].
    + constructor; [exact Hx|exact IH].
Qed.

Lemma get_of_In m k v :
  NoDup (keys m) -> In (k, v) m -> get m k = Some v.
Proof.
  induction m as [|[k' v'] rest IH]; simpl; intros Hnd Hin.
  - contradiction.
  - inversion Hnd as [|? ? Hnotin Hnd']; subst.
    destruct Hin as [Heq|Hin].
    + inversion Heq; subst. rewrite String.eqb_refl. reflexivity.
    + destruct (String.eqb_spec k' k) as [->|Hne].
      * exfalso. apply Hnotin.
        change k with (fst (k, v)). apply in_map. exact Hin.
      * apply IH; assumption.
Qed.

End WithValue.

End MapFacts.

Module DedupFacts.

Import GeminiService MapFacts.

Lemma first_occurrences_In (l : list string) (x : string) :
  In x (first_occurrences l) <-> In x l.
Proof.
  induction l as [|a rest IH]; simpl.
  - tauto.
  - rewrite filter_In, IH.
    destruct (String.eqb_spec a x) as [->|Hne]; simpl.
    + tauto.
    + split.
      * intros [H|[H _]]; tauto.
      * intros [H|H]; [congruence|tauto].
Qed.

Lemma first_occurrences_NoDup (l : list string) :
  NoDup (first_occurrences l).
Proof.
  induction l as [|a rest IH]; simpl.
  - constructor.
  - constructor.
    + rewrite filter_In. intros [_ H].
      rewrite String.eqb_refl in H. discriminate.
    + apply NoDup_filter. exact IH.
Qed.

Lemma first_occurrences_snoc (l : list string) (x : string) :
  first_occurrences (l ++ [x]) =
  if in_dec string_dec x (first_occurrences l) then first_occurrences l
  else first_occurrences l ++ [x].
Proof.
  induction l as [|a rest IH]; simpl.
  - reflexivity.
  - rewrite IH.
    destruct (string_dec a x) as [->|Hne].
    + destruct (in_dec string_dec x (first_occurrences rest)) as [Hin|Hnin].
      * reflexivity.
      * rewrite filter_app. simpl. rewrite String.eqb_refl. simpl.
        rewrite app_nil_r. reflexivity.
    + destruct (in_dec string_dec x (first_occurrences rest)) as [Hin|Hnin].
      * destruct (in_dec string_dec x
                    (filter (fun y => negb (String.eqb a y))
                            (first_occurrences rest))) as [_|Hn].
        -- reflexivity.
        -- exfalso. apply Hn. rewrite filter_In. split; [exact Hin|].
           destruct (String.eqb_spec a x); [congruence|reflexivity].
      * destruct (in_dec string_dec x
                    (filter (fun y => negb (String.eqb a y))
                            (first_occurrences rest))) as [Hy|_].
        -- exfalso. apply Hnin. rewrite filter_In in Hy. tauto.
        -- rewrite filter_app. simpl.
           destruct (String.eqb_spec a x); [congruence|reflexivity].
Qed.

Lemma last_with_uri_snoc (u : string) (l : list GroundingSource)
    (s : GroundingSource) :
  last_with_uri u (l ++ [s]) =
  if String.eqb (uri s) u then Some s else last_with_uri u l.
Proof. unfold last_with_uri. rewrite rev_app_distr. reflexivity. Qed.

(** What the map built from a list of sources holds. *)
Lemma of_entries_spec (sources : list GroundingSource) :
  let m := JsMap.of_entries (entries sources) in
  JsMap.keys m = first_occurrences (map uri sources) /\
  (forall u, JsMap.get m u = last_with_uri u sources) /\
  Forall (fun kv => fst kv = uri (snd kv)) m.
Proof.
  induction sources as [|s l IH] using rev_ind; simpl.
  - repeat split. constructor.
  - destruct IH as (Hk & Hg & Hf).
    unfold entries. rewrite map_app. simpl.
    rewrite of_entries_snoc. simpl.
    fold (entries l).
    repeat split.
    + rewrite keys_set, map_app. simpl.
      rewrite first_occurrences_snoc, Hk. reflexivity.
    + intro u. rewrite get_set, last_with_uri_snoc, Hg. reflexivity.
    + apply set_keyed; [exact Hf|reflexivity].
Qed.

Lemma uniqueSources_uris (sources : list GroundingSource) :
  map uri (uniqueSources sources) = first_occurrences (map uri sources).
Proof.
  destruct (of_entries_spec sources) as (Hk & _ & Hf).
  rewrite <- Hk. unfold uniqueSources, JsMap.values, JsMap.keys.
  fold (entries sources). clear Hk.
  induction Hf as [|[k v] rest Hx _ IH]; simpl.
  - reflexivity.
  - simpl in Hx. rewrite Hx, IH. reflexivity.
Qed.

Lemma uniqueSources_last (sources : list GroundingSource)
    (e : GroundingSource) :
  In e (uniqueSources sources) ->
  last_with_uri (uri e) sources = Some e.
Proof.
  intro Hin.
  destruct (of_entries_spec sources) as (Hk & Hg & Hf).
  unfold uniqueSources, JsMap.values in Hin. fold (entries sources) in Hin.
  apply in_map_iff in Hin. destruct Hin as ([k v] & Hv & Hin).
  simpl in Hv. subst v.
  rewrite Forall_forall in Hf. pose proof (Hf _ Hin) as Hke.
  simpl in Hke. subst k.
  rewrite <- Hg. apply get_of_In; [|exact Hin].
  rewrite Hk. apply first_occurrences_NoDup.
Qed.

Lemma uniqueSources_incl (sources : list GroundingSource)
    (e : GroundingSource) :
  In e (uniqueSources sources) -> In e sources.
Proof.
  intro Hin. apply uniqueSources_last in Hin.
  unfold last_with_uri in Hin. apply find_some in Hin.
  apply in_rev. tauto.
Qed.

End DedupFacts.

Module ChatFacts.

Import GeminiService DedupFacts.

Lemma sendMessageToGemini_ok sendMessage chat message result :
  sendMessage chat message = Ok result ->
  sendMessageToGemini sendMessage chat message =
  Ok {| reply_text := response_text result;
        reply_sources :=
          uniqueSources (extractSources (groundingChunksOf result)) |}.
Proof. intro H. unfold sendMessageToGemini. rewrite H. reflexivity. Qed.

Lemma sendMessageToGemini_throw sendMessage chat message e :
  sendMessage chat message = Throw e ->
  sendMessageToGemini sendMessage chat message = Throw e.
Proof. intro H. unfold sendMessageToGemini. rewrite H. reflexivity. Qed.

Lemma truthy_Some (o : option string) :
  truthy o = true -> exists s, o = Some s /\ s <> "".
Proof.
  destruct o as [s|]; simpl; [|discriminate].
  intro H. exists s. split; [reflexivity|].
  intro Hs. subst s. discriminate.
Qed.

Lemma hasWebSource_fields chunk :
  hasWebSource chunk = true ->
  exists w u t,
    web chunk = Some w /\ web_uri w = Some u /\ web_title w = Some t /\
    u <> "" /\ t <> "" /\ toSource chunk = {| title := t; uri := u |}.
Proof.
  unfold hasWebSource. intro H. apply andb_true_iff in H.
  destruct H as [Hu Ht].
  apply truthy_Some in Hu. apply truthy_Some in Ht.
  destruct Hu as (u & Hu & Hune). destruct Ht as (t & Ht & Htne).
  unfold toSource. rewrite Hu, Ht.
  unfold chunk_uri in Hu. unfold chunk_title in Ht.
  destruct (web chunk) as [w|]; [|discriminate].
  exists w, u, t. repeat split; assumption.
Qed.

Lemma lacks_field_dropped chunk :
  lacks_field chunk -> hasWebSource chunk = false.
Proof.
  unfold lacks_field, hasWebSource. intros [H|H]; rewrite H; simpl.
  - reflexivity.
  - apply andb_false_r.
Qed.

Lemma extractSources_of_cited (cited : list GroundingSource) :
  Forall (fun e => uri e <> "" /\ title e <> "") cited ->
  extractSources
    (map (fun e => {| web := Some {| web_uri := Some (uri e);
                                     web_title := Some (title e) |} |})
         cited) = cited.
Proof.
  unfold extractSources.
  induction 1 as [|e rest [Hu Ht] _ IH]; simpl; [reflexivity|].
  unfold hasWebSource at 1. simpl.
  destruct (String.eqb_spec (uri e) "") as [H|_]; [congruence|].
  destruct (String.eqb_spec (title e) "") as [H|_]; [congruence|].
  simpl. rewrite IH. unfold toSource. simpl.
  destruct e; reflexivity.
Qed.

End ChatFacts.

(** C2: for every chat response, the sources [sendMessageToGemini]
    returns are its citation entries (the list extracted from the
    response) deduplicated by locator: one entry per distinct locator
    (the locators returned have no duplicates and are those of the
    extracted list), every entry returned is the last entry of the
    extracted list with its locator, so it carries that entry's title,
    and the locators returned are in the order of their first
    occurrences in the extracted list.  Every list of entries with a
    title and a locator is the list extracted from some response. *)
Theorem sendMessageToGemini_dedup_last_wins_first_seen_order
    (sendMessage : Chat -> string -> exc GenerateContentResponse)
    (chat : Chat) (message : string) (result : GenerateContentResponse) :
  sendMessage chat message = Ok result ->
  (exists reply,
     GeminiService.sendMessageToGemini sendMessage chat message = Ok reply /\
     let sources :=
       GeminiService.extractSources (GeminiService.groundingChunksOf result) in
     let out := GeminiService.reply_sources reply in
     NoDup (map uri out) /\
     (forall u, In u (map uri out) <-> In u (map uri sources)) /\
     (forall e, In e out -> last_with_uri (uri e) sources = Some e) /\
     map uri out = first_occurrences (map uri sources)) /\
  (forall cited : list GroundingSource,
     Forall (fun e => uri e <> "" /\ title e <> "") cited ->
     GeminiService.extractSources
       (GeminiService.groundingChunksOf (response_citing cited)) = cited).
Proof.
  intro Hres. split.
  - eexists.
    split; [apply ChatFacts.sendMessageToGemini_ok; exact Hres|].
    simpl.
    pose proof (DedupFacts.uniqueSources_uris
                  (GeminiService.extractSources
                     (GeminiService.groundingChunksOf result))) as Huris.
    repeat split.
    + rewrite Huris. apply DedupFacts.first_occurrences_NoDup.
    + rewrite Huris. apply DedupFacts.first_occurrences_In.
    + rewrite Huris. apply DedupFacts.first_occurrences_In.
    + apply DedupFacts.uniqueSources_last.
    + exact Huris.
  - intros cited Hall.
    exact (ChatFacts.extractSources_of_cited cited Hall).
Qed.

(** A run of C2: the example response cites one locator twice. *)
Lemma sendMessageToGemini_dedup_last_wins_first_seen_order_witness :
  exists reply,
    GeminiService.sendMessageToGemini Examples.answering
      (GeminiService.createChatSession standard) "vitamin d" = Ok reply /\
    let sources :=
      GeminiService.extractSources
        (GeminiService.groundingChunksOf Examples.grounded_response) in
    let out := GeminiService.reply_sources reply in
    NoDup (map uri out) /\
    (forall u, In u (map uri out) <-> In u (map uri sources)) /\
    (forall e, In e out -> last_with_uri (uri e) sources = Some e) /\
    map uri out = first_occurrences (map uri sources).
Proof.
  apply (proj1 (sendMessageToGemini_dedup_last_wins_first_seen_order
                  Examples.answering
                  (GeminiService.createChatSession standard)
                  "vitamin d" Examples.grounded_response eq_refl)).
Defined.

(** C10: when the chat call returns a response, [sendMessageToGemini]
    returns a reply whose sources are the deduplication of the entries of
    the kept chunks only: no chunk that lacks a web uri or a web title is
    kept, and every entry returned comes from a chunk of the response
    that has both, neither of them empty. *)
Theorem sendMessageToGemini_sources_complete
    (sendMessage : Chat -> string -> exc GenerateContentResponse)
    (chat : Chat) (message : string) (result : GenerateContentResponse) :
  sendMessage chat message = Ok result ->
  exists reply kept,
    GeminiService.sendMessageToGemini sendMessage chat message = Ok reply /\
    GeminiService.reply_sources reply =
      GeminiService.uniqueSources (map GeminiService.toSource kept) /\
    (forall chunk, In chunk kept <->
       In chunk (GeminiService.groundingChunksOf result) /\
       GeminiService.hasWebSource chunk = true) /\
    (forall chunk, In chunk kept -> ~ lacks_field chunk) /\
    (forall e, In e (GeminiService.reply_sources reply) ->
       exists chunk w,
         In chunk (GeminiService.groundingChunksOf result) /\
         web chunk = Some w /\
         web_uri w = Some (uri e) /\ web_title w = Some (title e) /\
         uri e <> "" /\ title e <> "").
Proof.
  intro Hres.
  eexists. exists (filter GeminiService.hasWebSource
                          (GeminiService.groundingChunksOf result)).
  split; [apply ChatFacts.sendMessageToGemini_ok; exact Hres|].
  simpl. split; [reflexivity|].
  split; [intro chunk; apply filter_In|].
  split.
  - intros chunk Hin Hlack. apply filter_In in Hin.
    apply ChatFacts.lacks_field_dropped in Hlack.
    destruct Hin as [_ Hin]. congruence.
  - intros e He. apply DedupFacts.uniqueSources_incl in He.
    unfold GeminiService.extractSources in He.
    apply in_map_iff in He. destruct He as (chunk & Hsrc & Hin).
    apply filter_In in Hin. destruct Hin as [Hin Hhas].
    apply ChatFacts.hasWebSource_fields in Hhas.
    destruct Hhas as (w & u & t & Hw & Hu & Ht & Hune & Htne & Hto).
    exists chunk, w. rewrite <- Hsrc, Hto. simpl.
    repeat split; assumption.
Qed.

(** A run of C10: the reply to [Examples.answering] keeps the chunks of
    the response that have both fields. *)
Lemma sendMessageToGemini_sources_complete_witness :
  exists reply kept,
    GeminiService.sendMessageToGemini Examples.answering
      (GeminiService.createChatSession standard) "vitamin d" = Ok reply /\
    GeminiService.reply_sources reply =
      GeminiService.uniqueSources (map GeminiService.toSource kept) /\
    (forall chunk, In chunk kept <->
       In chunk (GeminiService.groundingChunksOf Examples.grounded_response) /\
       GeminiService.hasWebSource chunk = true) /\
    (forall chunk, In chunk kept -> ~ lacks_field chunk) /\
    (forall e, In e (GeminiService.reply_sources reply) ->
       exists chunk w,
         In chunk (GeminiService.groundingChunksOf Examples.grounded_response) /\
         web chunk = Some w /\
         web_uri w = Some (uri e) /\ web_title w = Some (title e) /\
         uri e <> "" /\ title e <> "").
Proof.
  apply (sendMessageToGemini_sources_complete Examples.answering
           (GeminiService.createChatSession standard) "vitamin d"
           Examples.grounded_response).
  reflexivity.
Defined.

(* ===================================================================== *)
(** ** The realtime voice session *)
(* ===================================================================== *)

Module LiveFacts.

Import Live LiveService.

Lemma playAudio_open (s : LiveSession) (c : AudioContext)
    (b : AudioBuffer) (t : Q) :
  outputContext s = Some c ->
  playAudio b t s =
  (Ok tt,
   set_nextStartTime (Qmax (nextStartTime s) t + duration b)%Q s,
   [BufferSourceStart (Qmax (nextStartTime s) t) b]).
Proof.
  intro H. unfold playAudio, mbind, this, assign, emit.
  rewrite H. destruct s; reflexivity.
Qed.

Lemma playAudio_closed (s : LiveSession) (b : AudioBuffer) (t : Q) :
  outputContext s = None -> playAudio b t s = (Ok tt, s, []).
Proof.
  intro H. unfold playAudio, mbind, this, mret. rewrite H. reflexivity.
Qed.

Section WithAudioUtils.

Variable decodeAudio : string -> exc (list Z).
Variable decodePcmAudioData :
  list Z -> AudioContext -> Z -> exc AudioBuffer.

Let handle := handleServerMessage decodeAudio decodePcmAudioData.

(** The three ways a message can be handled: the handler throws
    before it touched anything; it plays nothing; it plays one
    buffer. *)
Lemma handleServerMessage_cases (m : LiveServerMessage) (t : Q)
    (s : LiveSession) :
  (exists e, handle m t s = (Throw e, s, [])) \/
  handle m t s =
    (Ok tt, (if interruptedOf m then set_nextStartTime 0%Q s else s), []) \/
  (exists c b,
     outputContext s = Some c /\
     handle m t s =
     (Ok tt,
      set_nextStartTime
        (if interruptedOf m then 0%Q
         else (Qmax (nextStartTime s) t + duration b)%Q) s,
      [BufferSourceStart (Qmax (nextStartTime s) t) b;
       CallOnAudioData b])).
Proof.
  unfold handle, handleServerMessage, mbind, lift, this.
  destruct (base64AudioOf m) as [b64|e]; [|left; eauto].
  destruct (truthy b64); simpl.
  2:{ right; left. destruct (interruptedOf m); reflexivity. }
  destruct (outputContext s) as [c|] eqn:Hc; simpl.
  2:{ right; left. destruct (interruptedOf m); reflexivity. }
  destruct (decodeAudio (or_default b64 "")) as [bytes|e]; [|left; eauto].
  destruct (decodePcmAudioData bytes c 24000) as [b|e]; [|left; eauto].
  right; right. exists c, b. split; [reflexivity|].
  rewrite (playAudio_open s c b t Hc). simpl.
  destruct (interruptedOf m); destruct s; reflexivity.
Qed.

Lemma handleServerMessage_outputContext (m : LiveServerMessage) (t : Q)
    (s : LiveSession) :
  outputContext (state (handle m t s)) = outputContext s.
Proof.
  destruct (handleServerMessage_cases m t s)
    as [(e & H)|[H|(c & b & _ & H)]]; rewrite H; unfold state; simpl.
  - reflexivity.
  - destruct (interruptedOf m); reflexivity.
  - reflexivity.
Qed.

Lemma scheduled_app (e1 e2 : list Effect) :
  scheduled (e1 ++ e2) = scheduled e1 ++ scheduled e2.
Proof.
  induction e1 as [|e rest IH]; simpl; [reflexivity|].
  destruct e; simpl; rewrite ?IH; reflexivity.
Qed.

(** Without interruptions the cursor is the end of the last buffer
    played, so the schedule is chained from the cursor on. *)
Lemma deliver_chained (events : list Inbound) :
  existsb carries_interrupt events = false ->
  forall s : LiveSession,
    chained (nextStartTime s)
      (scheduled (snd (deliver decodeAudio decodePcmAudioData events s))).
Proof.
  induction events as [|[m t] rest IH]; simpl; intros Hno s.
  - exact I.
  - apply orb_false_iff in Hno. destruct Hno as [Hm Hrest].
    specialize (IH Hrest).
    fold handle.
    destruct (handleServerMessage_cases m t s)
      as [(e & H)|[H|(c & b & _ & H)]];
      rewrite H; rewrite ?Hm; unfold state, effects; simpl.
    + specialize (IH s).
      destruct (deliver decodeAudio decodePcmAudioData rest s).
      exact IH.
    + specialize (IH s).
      destruct (deliver decodeAudio decodePcmAudioData rest s).
      exact IH.
    + match goal with
      | |- context [deliver _ _ rest ?s1] =>
          specialize (IH s1);
          destruct (deliver decodeAudio decodePcmAudioData rest s1)
      end.
      simpl in *. split; [apply Q.le_max_l|exact IH].
Qed.

End WithAudioUtils.

Lemma chained_no_overlap (sched : list (Q * Q)) :
  forall cursor, chained cursor sched -> no_overlap sched.
Proof.
  induction sched as [|[start d] rest IH]; intros cursor Hc i a b Ha Hb.
  - destruct i; discriminate.
  - simpl in Hc. destruct Hc as [_ Hrest].
    destruct i as [|i].
    + simpl in Ha, Hb. inversion Ha; subst a. simpl.
      destruct rest as [|[start' d'] rest']; [discriminate|].
      simpl in Hb. inversion Hb; subst b. simpl.
      simpl in Hrest. tauto.
    + simpl in Ha. apply (IH _ Hrest i a b Ha Hb).
Qed.

Lemma cleanup_released (s : LiveSession) :
  released (state (cleanup s)) = true /\ result (cleanup s) = Ok tt.
Proof.
  destruct s as [ic oc st pr so nst se ia].
  destruct ic, oc, st, pr, so; split; reflexivity.
Qed.

End LiveFacts.

(** C1, as the code has it: for every session and every sequence of
    inbound messages none of which carries the interrupted flag, the
    playback starts that handling them schedules do not overlap: the
    start of buffer i+1 is at or after the start of buffer i plus the
    duration of buffer i. *)
Theorem uninterrupted_playback_no_overlap
    (decodeAudio : string -> exc (list Z))
    (decodePcmAudioData : list Z -> AudioContext -> Z -> exc AudioBuffer)
    (events : list LiveService.Inbound) (s : Live.LiveSession) :
  existsb carries_interrupt events = false ->
  no_overlap (scheduled (snd (deliver decodeAudio decodePcmAudioData events s))).
Proof.
  intro Hno.
  apply (LiveFacts.chained_no_overlap _ (Live.nextStartTime s)).
  apply LiveFacts.deliver_chained. exact Hno.
Qed.

(** A run of C1 as amended: two audio messages and no interruption. *)
Lemma uninterrupted_playback_no_overlap_witness :
  no_overlap
    (scheduled
       (snd (deliver AudioUtils.decodeAudio AudioUtils.decodePcmAudioData
               Examples.steady_playback Examples.open_session))).
Proof.
  apply (uninterrupted_playback_no_overlap
           AudioUtils.decodeAudio AudioUtils.decodePcmAudioData
           Examples.steady_playback Examples.open_session).
  reflexivity.
Defined.

(** C1 as stated fails: audio, an interruption and audio again within
    one clock quantum are scheduled at the same start time, so the
    second buffer starts before the first one ends. *)
Lemma interrupted_playback_overlaps :
  ~ no_overlap
      (scheduled
         (snd (deliver AudioUtils.decodeAudio AudioUtils.decodePcmAudioData
                 Examples.interrupted_playback Examples.open_session))).
Proof.
  intro H.
  specialize (H 0%nat (1%Q, (2 # 24000)%Q) (1%Q, (2 # 24000)%Q)).
  vm_compute in H.
  apply H; reflexivity.
Qed.

(** C4, as the code has it: when a message carries the interrupted flag
    and its handler returns, the cursor [nextStartTime] is 0; the handler
    made no call on the audio graph other than the start of the buffer
    the message itself carried, if any, so nothing scheduled earlier is
    cancelled; and the next buffer played while the output context is
    open, at a clock reading that is not negative, starts at that clock
    reading. *)
Theorem interrupted_resets_cursor_to_zero
    (decodeAudio : string -> exc (list Z))
    (decodePcmAudioData : list Z -> AudioContext -> Z -> exc AudioBuffer)
    (message : LiveService.LiveServerMessage) (currentTime : Q)
    (s : Live.LiveSession) :
  let r := LiveService.handleServerMessage
             decodeAudio decodePcmAudioData message currentTime s in
  LiveService.interruptedOf message = true ->
  Live.result r = Ok tt ->
  Live.nextStartTime (Live.state r) = 0%Q /\
  (Live.effects r = [] \/
   exists buffer,
     Live.effects r =
     [Live.BufferSourceStart (Qmax (Live.nextStartTime s) currentTime) buffer;
      Live.CallOnAudioData buffer]) /\
  (forall (next : AudioBuffer) (later : Q),
     (0 <= later)%Q ->
     Live.outputContext (Live.state r) <> None ->
     exists start,
       scheduled (Live.effects (LiveService.playAudio next later (Live.state r)))
       = [(start, duration next)] /\
       (start == later)%Q).
Proof.
  intros r Hint Hok. subst r.
  destruct (LiveFacts.handleServerMessage_cases
              decodeAudio decodePcmAudioData message currentTime s)
    as [(e & H)|[H|(c & b & Hc & H)]];
    rewrite H in *; rewrite ?Hint in *;
    unfold Live.result, Live.state, Live.effects in *; simpl in *.
  - discriminate.
  - split; [reflexivity|]. split; [left; reflexivity|].
    intros next later Hlater Hopen.
    destruct (Live.outputContext s) as [c|] eqn:Hc; [|congruence].
    rewrite (LiveFacts.playAudio_open _ c next later) by exact Hc.
    simpl. eexists. split; [reflexivity|].
    apply Q.max_r. exact Hlater.
  - split; [reflexivity|]. split; [right; exists b; reflexivity|].
    intros next later Hlater _.
    rewrite (LiveFacts.playAudio_open _ c next later) by exact Hc.
    simpl. eexists. split; [reflexivity|].
    apply Q.max_r. exact Hlater.
Qed.

(** A run of C4 as amended: an interruption at clock reading 5. *)
Lemma interrupted_resets_cursor_to_zero_witness :
  let r := LiveService.handleServerMessage
             AudioUtils.decodeAudio AudioUtils.decodePcmAudioData
             Examples.interrupt_message 5%Q Examples.open_session in
  Live.nextStartTime (Live.state r) = 0%Q /\
  (Live.effects r = [] \/
   exists buffer,
     Live.effects r =
     [Live.BufferSourceStart
        (Qmax (Live.nextStartTime Examples.open_session) 5%Q) buffer;
      Live.CallOnAudioData buffer]) /\
  (forall (next : AudioBuffer) (later : Q),
     (0 <= later)%Q ->
     Live.outputContext (Live.state r) <> None ->
     exists start,
       scheduled (Live.effects (LiveService.playAudio next later (Live.state r)))
       = [(start, duration next)] /\
       (start == later)%Q).
Proof.
  apply (interrupted_resets_cursor_to_zero
           AudioUtils.decodeAudio AudioUtils.decodePcmAudioData
           Examples.interrupt_message 5%Q Examples.open_session);
    reflexivity.
Defined.

(** C4 as stated fails: an open session that handles an interruption
    while its output clock reads 5 is left with the cursor at 0, which is
    not the clock reading. *)
Lemma interrupted_cursor_is_not_clock :
  let r := LiveService.handleServerMessage
             AudioUtils.decodeAudio AudioUtils.decodePcmAudioData
             Examples.interrupt_message 5%Q Examples.open_session in
  LiveService.interruptedOf Examples.interrupt_message = true /\
  Live.result r = Ok tt /\
  Live.outputContext (Live.state r) = Some {| ctx_sampleRate := 24000 |} /\
  ~ (Live.nextStartTime (Live.state r) == 5)%Q.
Proof.
  repeat split. vm_compute. discriminate.
Qed.

(** C8, the code: in every state the [onerror] callback reports the
    error and does nothing else, so the session is left exactly as it
    was, while [disconnect] in every state releases the processor, the
    source, the stream and both contexts.  At an open session [onerror]
    therefore leaves all five held and the session active, where
    [disconnect] disconnects the two nodes, stops the track and closes
    both contexts; the catch block of [connect], the other error path,
    does report and clean up. *)
Theorem onerror_reports_without_cleanup (err : error) (s : Live.LiveSession) :
  LiveService.onerror err s = (Ok tt, s, [Live.CallOnError err]) /\
  released (Live.state (LiveService.disconnect s)) = true /\
  released (Live.state (LiveService.onerror err Examples.open_session)) = false /\
  Live.isActive (Live.state (LiveService.onerror err Examples.open_session)) = true /\
  Live.effects (LiveService.disconnect Examples.open_session) =
    [Live.ProcessorDisconnect; Live.SourceDisconnect; Live.TrackStop 0;
     Live.ContextClose {| ctx_sampleRate := 16000 |};
     Live.ContextClose {| ctx_sampleRate := 24000 |}] /\
  LiveService.connect Examples.contexts (Ok Examples.microphone) (Throw err)
    Live.new =
    (Ok tt, Live.new,
     [Live.CallOnError err; Live.TrackStop 0;
      Live.ContextClose {| ctx_sampleRate := 16000 |};
      Live.ContextClose {| ctx_sampleRate := 24000 |}]).
Proof.
  split; [reflexivity|]. split.
  - unfold LiveService.disconnect, Live.mbind, Live.assign. simpl.
    pose proof (LiveFacts.cleanup_released (Live.set_isActive false s)) as [H _].
    unfold Live.state in *.
    destruct (LiveService.cleanup (Live.set_isActive false s)) as [[r s'] e].
    exact H.
  - repeat split.
Qed.

(* ===================================================================== *)
(** ** The PCM conversion *)
(* ===================================================================== *)

Module CodecFacts.

Import TypedArray AudioUtils Speech.

Lemma Math_round_bounds (y : Q) :
  (inject_Z (Math_round y) <= y + (1 # 2) /\
   y + (1 # 2) < inject_Z (Math_round y) + 1)%Q.
Proof.
  unfold Math_round. split.
  - apply Qfloor_le.
  - pose proof (Qlt_floor (y + (1 # 2))) as H.
    rewrite inject_Z_plus in H. exact H.
Qed.

Lemma encode_sample_round (x : Q) :
  (-1 <= x <= 1)%Q ->
  encode_sample x = Math_round (x * 32767) /\
  -32767 <= encode_sample x <= 32767.
Proof.
  intros [Hlo Hhi].
  destruct (Math_round_bounds (x * 32767)) as [Hle Hlt].
  assert (Hn : -32767 <= Math_round (x * 32767) <= 32767).
  { split.
    - assert (H : (inject_Z (-32768) < inject_Z (Math_round (x * 32767)))%Q).
      { change (inject_Z (-32768)) with (-32768)%Q. lra. }
      unfold Qlt in H. simpl in H. lia.
    - assert (H : (inject_Z (Math_round (x * 32767)) < inject_Z 32768)%Q).
      { change (inject_Z 32768) with 32768%Q. lra. }
      unfold Qlt in H. simpl in H. lia. }
  unfold encode_sample, clamp_int16. split; lia.
Qed.

(** One sample through the two conversions. *)
Lemma sample_error (x : Q) :
  (-1 <= x <= 1)%Q ->
  (Qabs (decode_sample (encode_sample x) - x) <= 3 # 65536)%Q.
Proof.
  intros Hx.
  destruct (encode_sample_round x Hx) as [Henc _].
  destruct (Math_round_bounds (x * 32767)) as [Hle Hlt].
  rewrite Henc. unfold decode_sample.
  apply Qabs_Qle_condition.
  destruct Hx as [Hlo Hhi].
  set (n := inject_Z (Math_round (x * 32767))) in *. clearbody n.
  unfold Qdiv. change (/ 32768)%Q with (1 # 32768)%Q.
  split; lra.
Qed.

Lemma int16_bytes_roundtrip (v : Z) :
  -32768 <= v <= 32767 ->
  int16_of_bytes ((v mod 65536) mod 256) ((v mod 65536) / 256) = v.
Proof.
  intro Hv. unfold int16_of_bytes.
  assert (Hu : (v mod 65536) mod 256 + 256 * ((v mod 65536) / 256)
               = v mod 65536).
  { pose proof (Z.div_mod (v mod 65536) 256). lia. }
  rewrite Hu.
  destruct (Z.leb_spec 32768 (v mod 65536)) as [H|H].
  - assert (v < 0).
    { destruct (Z.lt_ge_cases v 0) as [Hneg|Hpos]; [exact Hneg|].
      rewrite Z.mod_small in H; lia. }
    assert (Hm : v mod 65536 = v + 65536).
    { symmetry. apply (Z.mod_unique v 65536 (-1)); lia. }
    lia.
  - assert (0 <= v).
    { destruct (Z.lt_ge_cases v 0) as [Hneg|Hpos]; [|exact Hpos].
      assert (Hm : v mod 65536 = v + 65536).
      { symmetry. apply (Z.mod_unique v 65536 (-1)); lia. }
      lia. }
    apply Z.mod_small. lia.
Qed.

Lemma int16_pairs_pack (ints : list Z) :
  Forall (fun v => -32768 <= v <= 32767) ints ->
  int16_pairs (flat_map bytes_of_int16 ints) = Some ints.
Proof.
  induction 1 as [|v rest Hv _ IH]; simpl.
  - reflexivity.
  - rewrite IH, (int16_bytes_roundtrip v Hv). reflexivity.
Qed.

Lemma store_at_end (pre : list Q) (v x : Q) (post : list Q) :
  store (List.length pre) v (pre ++ x :: post) = pre ++ v :: post.
Proof.
  induction pre as [|p pre IH]; simpl; [reflexivity|].
  rewrite IH. reflexivity.
Qed.

(** The loop invariant: after [i] iterations the first [i] elements are
    converted and the rest is as it was. *)
Lemma fill_invariant (n : nat) :
  forall (done todo : list Z) (tail : list Q),
    List.length todo = n -> List.length tail = n ->
    fill n (List.length done) (done ++ todo)
         (map decode_sample done ++ tail)
    = map decode_sample (done ++ todo).
Proof.
  induction n as [|n IH]; intros done todo tail Htodo Htail.
  - destruct todo; [|discriminate]. destruct tail; [|discriminate].
    simpl. rewrite !app_nil_r. reflexivity.
  - destruct todo as [|v todo]; [discriminate|].
    destruct tail as [|x tail]; [discriminate|].
    simpl.
    replace (List.length done) with (List.length (map decode_sample done))
      at 2 by apply length_map.
    rewrite store_at_end.
    rewrite app_nth2, Nat.sub_diag by lia. simpl.
    specialize (IH (done ++ [v]) todo tail).
    rewrite length_app, Nat.add_comm in IH. simpl in IH.
    rewrite map_app, <- !app_assoc in IH. simpl in IH.
    apply IH; [injection Htodo|injection Htail]; auto.
Qed.

Lemma fill_map (dataInt16 : list Z) :
  fill (List.length dataInt16) 0 dataInt16
       (repeat 0%Q (List.length dataInt16))
  = map decode_sample dataInt16.
Proof.
  apply (fill_invariant (List.length dataInt16) [] dataInt16).
  - reflexivity.
  - apply repeat_length.
Qed.

Lemma pcmToBuffer_ok (bytes : list Z) (ints : list Z) :
  int16_pairs bytes = Some ints ->
  ints <> [] ->
  pcmToBuffer bytes =
  Ok {| channelData := map decode_sample ints; sampleRate := 24000 |}.
Proof.
  intros H Hne. unfold pcmToBuffer, Int16Array_of_buffer. rewrite H.
  destruct ints as [|v rest]; [congruence|].
  unfold Exc.bind.
  change (createBuffer (List.length (v :: rest)) 24000)
    with (Ok {| channelData := repeat 0%Q (List.length (v :: rest));
                sampleRate := 24000 |}).
  cbv beta iota. unfold ret.
  cbn [channelData sampleRate].
  rewrite (fill_map (v :: rest)). reflexivity.
Qed.

(** No 16-bit integer at all: [createBuffer] refuses the length 0. *)
Lemma pcmToBuffer_empty (bytes : list Z) :
  int16_pairs bytes = Some [] ->
  pcmToBuffer bytes = Throw (Error "NotSupportedError").
Proof.
  intro H. unfold pcmToBuffer, Int16Array_of_buffer. rewrite H. reflexivity.
Qed.

Lemma encode_pcm_map (samples : list Q) :
  encode_pcm samples = flat_map bytes_of_int16 (map encode_sample samples).
Proof.
  unfold encode_pcm.
  induction samples as [|x rest IH]; simpl; [reflexivity|].
  rewrite IH. reflexivity.
Qed.

Lemma pcmToBuffer_encode (samples : list Q) :
  Forall (fun x => (-1 <= x <= 1)%Q) samples ->
  samples <> [] ->
  pcmToBuffer (encode_pcm samples) =
  Ok {| channelData := map (fun x => decode_sample (encode_sample x)) samples;
        sampleRate := 24000 |}.
Proof.
  intros Hall Hne. rewrite encode_pcm_map.
  rewrite (pcmToBuffer_ok _ (map encode_sample samples)).
  - rewrite map_map. reflexivity.
  - apply int16_pairs_pack. apply Forall_map.
    eapply Forall_impl; [|exact Hall].
    intros x Hx. destruct (encode_sample_round x Hx) as [_ H]. lia.
  - destruct samples; [congruence|discriminate].
Qed.

End CodecFacts.

(** C3, as the conversions have it: for every array of samples in
    [-1,1], the bytes of the upload encoding are read back by the decoder
    of [generateSpeech] as one sample per input sample, and every sample
    of the array is reconstructed within 3/65536 (one and a half steps of
    1/32768) of its value.  The array without any sample has nothing to
    reconstruct; there the decoder's [createBuffer] refuses the length
    0. *)
Theorem pcm_roundtrip_within_three_half_steps (samples : list Q) :
  Forall (fun x => (-1 <= x <= 1)%Q) samples ->
  (samples <> [] ->
   exists buffer,
     Speech.pcmToBuffer (AudioUtils.encode_pcm samples) = Ok buffer /\
     Forall2 (fun x y => (Qabs (y - x) <= 3 # 65536)%Q)
             samples (channelData buffer)) /\
  (forall (i : nat) (x : Q),
     nth_error samples i = Some x ->
     exists buffer y,
       Speech.pcmToBuffer (AudioUtils.encode_pcm samples) = Ok buffer /\
       List.length (channelData buffer) = List.length samples /\
       nth_error (channelData buffer) i = Some y /\
       (Qabs (y - x) <= 3 # 65536)%Q).
Proof.
  intro Hall. split.
  - intro Hne. eexists. split.
    + apply CodecFacts.pcmToBuffer_encode; assumption.
    + simpl. clear Hne. induction Hall as [|x rest Hx _ IH]; simpl.
      * constructor.
      * constructor; [apply CodecFacts.sample_error; exact Hx|exact IH].
  - intros i x Hi.
    assert (Hne : samples <> []).
    { intro H. subst samples. destruct i; discriminate. }
    eexists. eexists. split.
    + apply CodecFacts.pcmToBuffer_encode; assumption.
    + simpl. split; [apply length_map|]. split.
      * apply map_nth_error. exact Hi.
      * apply CodecFacts.sample_error.
        rewrite Forall_forall in Hall. apply Hall.
        eapply nth_error_In. exact Hi.
Qed.

(** A run of C3 as amended on the samples 1, -1, 1/2 and 1 - 7/2^18. *)
Lemma pcm_roundtrip_within_three_half_steps_witness :
  exists buffer,
    Speech.pcmToBuffer
      (AudioUtils.encode_pcm [1; -1; 1 # 2; Examples.loud_sample]%Q)
    = Ok buffer /\
    Forall2 (fun x y => (Qabs (y - x) <= 3 # 65536)%Q)
            [1; -1; 1 # 2; Examples.loud_sample]%Q (channelData buffer).
Proof.
  apply (pcm_roundtrip_within_three_half_steps
           [1; -1; 1 # 2; Examples.loud_sample]%Q).
  - repeat constructor; vm_compute; discriminate.
  - discriminate.
Defined.

(** C3 as stated fails: the sample 1 - 7/2^18 lies in [-1,1], is encoded
    as 32766 and read back as 32766/32768, which is further than 1/32768
    from it. *)
Lemma pcm_roundtrip_exceeds_one_step :
  (-1 <= Examples.loud_sample <= 1)%Q /\
  AudioUtils.encode_sample Examples.loud_sample = 32766 /\
  exists y,
    Speech.pcmToBuffer (AudioUtils.encode_pcm [Examples.loud_sample])
    = Ok {| channelData := [y]; sampleRate := 24000 |} /\
    ~ (Qabs (y - Examples.loud_sample) <= 1 # 32768)%Q.
Proof.
  split; [split; vm_compute; discriminate|].
  split; [reflexivity|].
  eexists. split; [reflexivity|].
  vm_compute. intro H. apply H. reflexivity.
Qed.

(* ===================================================================== *)
(** ** Speech synthesis *)
(* ===================================================================== *)

(** C9: for every input text and every behaviour of the synthesis call,
    of the audio context and of the base64 decoder, [generateSpeech]
    returns and does not throw; its result is the absent value or a
    buffer; when the synthesis call throws the result is the absent
    value, and it is the same absent value when the call returns a
    response without an audio payload. *)
Theorem generateSpeech_never_throws
    (generateContent : string -> exc GenerateContentResponse)
    (newAudioContext : Z -> exc AudioContext)
    (decodeAudio : string -> exc (list Z))
    (text : string) :
  let r := Speech.generateSpeech generateContent newAudioContext decodeAudio text in
  Exc.throws r = false /\
  (r = Ok None \/ exists buffer, r = Ok (Some buffer)) /\
  (forall e, generateContent text = Throw e -> r = Ok None) /\
  (forall response,
     generateContent text = Ok response ->
     truthy (Speech.inlineAudioOf response) = false ->
     r = Ok None).
Proof.
  intro r. subst r. unfold Speech.generateSpeech.
  assert (Hfail : forall e, generateContent text = Throw e ->
            Speech.generateSpeech generateContent newAudioContext decodeAudio text
            = Ok None).
  { intros e He. unfold Speech.generateSpeech. rewrite He. reflexivity. }
  assert (Hsilent : forall response,
            generateContent text = Ok response ->
            truthy (Speech.inlineAudioOf response) = false ->
            Speech.generateSpeech generateContent newAudioContext decodeAudio text
            = Ok None).
  { intros response He Hf. unfold Speech.generateSpeech.
    rewrite He. simpl. rewrite Hf. reflexivity. }
  unfold Speech.generateSpeech in Hfail, Hsilent.
  split; [|split; [|split; [exact Hfail|exact Hsilent]]];
    destruct (generateContent text) as [response|e]; simpl;
    try (destruct (truthy (Speech.inlineAudioOf response)); simpl);
    try (destruct (newAudioContext 24000) as [ctx|e1]; simpl);
    try (destruct (decodeAudio _) as [bytes|e2]; simpl);
    try (destruct (Speech.pcmToBuffer bytes) as [buffer|e3]; simpl);
    try reflexivity; try (left; reflexivity);
    right; eexists; reflexivity.
Qed.

(** A run of C9: a failing synthesis call and a response without audio
    give the same absent result. *)
Lemma generateSpeech_never_throws_witness :
  Speech.generateSpeech Examples.tts_failing Examples.contexts
    AudioUtils.decodeAudio "Drink water." = Ok None /\
  Speech.generateSpeech Examples.tts_silent Examples.contexts
    AudioUtils.decodeAudio "Drink water." = Ok None.
Proof.
  split.
  - apply (proj1 (proj2 (proj2
             (generateSpeech_never_throws Examples.tts_failing
                Examples.contexts AudioUtils.decodeAudio "Drink water.")))
             (Error "503 Service Unavailable")).
    reflexivity.
  - apply (proj2 (proj2 (proj2
             (generateSpeech_never_throws Examples.tts_silent
                Examples.contexts AudioUtils.decodeAudio "Drink water.")))
             {| response_text := None; candidates := Some [] |}).
    + reflexivity.
    + reflexivity.
Defined.

(* ===================================================================== *)
(** ** The conversation view controller *)
(* ===================================================================== *)

Module AppFacts.

Import GeminiService App.

Lemma initChat_isLoading (s : AppState) :
  isLoading (initChat s) = isLoading s.
Proof. reflexivity. Qed.

Lemma setMode_isLoading (m : ModelMode) (s : AppState) :
  isLoading (setMode m s) = isLoading s.
Proof. unfold setMode. destruct (ModelMode_eqb m (mode s)); reflexivity. Qed.

Lemma handleReset_isLoading (c : bool) (s : AppState) :
  isLoading (handleReset c s) = isLoading s.
Proof. destruct c; reflexivity. Qed.

Lemma ModelMode_eqb_neq (a b : ModelMode) :
  a <> b -> ModelMode_eqb a b = false.
Proof. destruct a, b; simpl; congruence. Qed.

Lemma handleSendMessage_loading textOverride now (s : AppState) :
  isLoading s = true -> handleSendMessage textOverride now s = (s, None).
Proof.
  intro H. unfold handleSendMessage. rewrite H, orb_true_r.
  destruct (chatSessionRef s); reflexivity.
Qed.

(** When the guard lets a send through, the component was idle and is
    loading afterwards. *)
Lemma handleSendMessage_issues textOverride now (s s' : AppState)
    (req : Request) :
  handleSendMessage textOverride now s = (s', Some req) ->
  isLoading s = false /\ isLoading s' = true.
Proof.
  unfold handleSendMessage.
  destruct (chatSessionRef s) as [chat|]; [|discriminate].
  destruct (String.eqb _ _); simpl; [discriminate|].
  destruct (isLoading s) eqn:Hl; [discriminate|].
  intro H. inversion H; subst. split; reflexivity.
Qed.

Lemma handleSendMessage_skips textOverride now (s s' : AppState) :
  handleSendMessage textOverride now s = (s', None) -> s' = s.
Proof.
  unfold handleSendMessage.
  destruct (chatSessionRef s) as [chat|]; [|congruence].
  destruct (String.eqb _ _ || isLoading s); [congruence|discriminate].
Qed.

Lemma step_idle_or_one (w : World) (ev : Event) :
  idle_or_one w -> idle_or_one (step w ev).
Proof.
  intros [Hlen Hidle]. destruct ev as [t now|sdk now|v|m|c]; simpl.
  - destruct (handleSendMessage t now (app w)) as [s' [req|]] eqn:Hs.
    + apply handleSendMessage_issues in Hs. destruct Hs as [H0 H1].
      rewrite (Hidle H0). split; simpl; [lia|congruence].
    + apply handleSendMessage_skips in Hs. subst s'. split; assumption.
  - destruct (inFlight w) as [|[chat message] rest] eqn:Hf.
    + split; [rewrite Hf; simpl; lia|intros _; exact Hf].
    + simpl in Hlen. destruct rest; [|simpl in Hlen; lia].
      split; simpl; [lia|reflexivity].
  - split; assumption.
  - split; simpl; [assumption|]. rewrite setMode_isLoading. exact Hidle.
  - split; simpl; [assumption|]. rewrite handleReset_isLoading. exact Hidle.
Qed.

Lemma run_idle_or_one (evs : list Event) :
  forall w, idle_or_one w -> idle_or_one (run w evs).
Proof.
  unfold run. induction evs as [|ev rest IH]; simpl; intros w Hw.
  - exact Hw.
  - apply IH. apply step_idle_or_one. exact Hw.
Qed.

Lemma start_idle_or_one : idle_or_one start.
Proof. split; simpl; [lia|reflexivity]. Qed.

End AppFacts.

(** C5: while the loading flag is set, [handleSendMessage] with any text
    returns at its guard: it issues no request and leaves the transcript,
    the input and every other cell as they were, so the page and the
    requests in flight are unchanged; and after any sequence of events
    from the first render, at most one request is in flight. *)
Theorem send_while_loading_is_ignored
    (s : App.AppState) (pending : list App.Request)
    (textOverride : option string) (now : Z) (events : list App.Event) :
  App.isLoading s = true ->
  App.handleSendMessage textOverride now s = (s, None) /\
  App.step {| App.app := s; App.inFlight := pending |}
           (App.Send textOverride now)
    = {| App.app := s; App.inFlight := pending |} /\
  (List.length (App.inFlight (App.run App.start events)) <= 1)%nat.
Proof.
  intro Hl.
  pose proof (AppFacts.handleSendMessage_loading textOverride now s Hl) as H.
  split; [exact H|]. split.
  - simpl. rewrite H. reflexivity.
  - apply (AppFacts.run_idle_or_one events App.start
             AppFacts.start_idle_or_one).
Qed.

(** A run of C5: a second send while the first is pending. *)
Lemma send_while_loading_is_ignored_witness :
  App.handleSendMessage (Some "And a cough?") 1500
    (App.app Examples.waiting) = (App.app Examples.waiting, None) /\
  App.step Examples.waiting (App.Send (Some "And a cough?") 1500)
    = Examples.waiting /\
  (List.length
     (App.inFlight
        (App.run App.start
           [App.Send (Some "What is a fever?") 1000;
            App.Send (Some "And a cough?") 1500])) <= 1)%nat.
Proof.
  apply (send_while_loading_is_ignored
           (App.app Examples.waiting) (App.inFlight Examples.waiting)
           (Some "And a cough?") 1500
           [App.Send (Some "What is a fever?") 1000;
            App.Send (Some "And a cough?") 1500]).
  reflexivity.
Defined.

(** C6: for every change of the mode to a different one, the session
    cell holds a session newly created for the new mode, whatever it held
    before (the model is the one mapped to the mode, and the thinking
    budget is set for the thinking mode only), that session differs from
    one created for the old mode, and the transcript is the empty
    list. *)
Theorem mode_change_replaces_session_and_clears_transcript
    (s : App.AppState) (m : ModelMode) :
  m <> App.mode s ->
  let s' := App.setMode m s in
  App.mode s' = m /\
  App.chatSessionRef s' = Some (GeminiService.createChatSession m) /\
  chat_model (GeminiService.createChatSession m) = GeminiService.MODEL_MAP m /\
  thinkingBudget (chat_config (GeminiService.createChatSession m)) =
    (if ModelMode_eqb m thinking then Some 32768 else None) /\
  GeminiService.createChatSession m <>
    GeminiService.createChatSession (App.mode s) /\
  App.messages s' = [].
Proof.
  intros Hne s'. subst s'. unfold App.setMode.
  rewrite (AppFacts.ModelMode_eqb_neq _ _ Hne).
  repeat split.
  - destruct m; reflexivity.
  - intro H. apply Hne.
    destruct m, (App.mode s); try reflexivity; discriminate.
Qed.

(** A run of C6: from the standard mode to the thinking mode, with one
    message in the transcript. *)
Lemma mode_change_replaces_session_and_clears_transcript_witness :
  let s' := App.setMode thinking (App.app Examples.waiting) in
  App.mode s' = thinking /\
  App.chatSessionRef s' = Some (GeminiService.createChatSession thinking) /\
  chat_model (GeminiService.createChatSession thinking) =
    GeminiService.MODEL_MAP thinking /\
  thinkingBudget (chat_config (GeminiService.createChatSession thinking)) =
    (if ModelMode_eqb thinking thinking then Some 32768 else None) /\
  GeminiService.createChatSession thinking <>
    GeminiService.createChatSession (App.mode (App.app Examples.waiting)) /\
  App.messages s' = [].
Proof.
  apply (mode_change_replaces_session_and_clears_transcript
           (App.app Examples.waiting) thinking).
  discriminate.
Defined.

(** C7: when the chat call of a pending send throws, whatever the error,
    the transcript gains exactly one entry, which has [isError] set and
    the fixed connection message as its text; the loading flag is
    cleared; the session cell is untouched; and a further send with a
    text that is not empty issues a request on that session. *)
Theorem failed_send_appends_one_error_entry
    (sendMessage : Chat -> string -> exc GenerateContentResponse)
    (chat : Chat) (message : string) (e : error)
    (now : Z) (s : App.AppState) :
  sendMessage chat message = Throw e ->
  let outcome := GeminiService.sendMessageToGemini sendMessage chat message in
  let s' := App.handleSendMessage_resume outcome now s in
  outcome = Throw e /\
  (exists entry,
     App.messages s' = App.messages s ++ [entry] /\
     isError entry = Some true /\
     text entry =
       "I'm having trouble connecting right now. Please check your internet connection and try again." /\
     role entry = model) /\
  App.isLoading s' = false /\
  App.chatSessionRef s' = App.chatSessionRef s /\
  (forall (again : string) (later : Z) (current : Chat),
     again <> "" ->
     App.chatSessionRef s = Some current ->
     snd (App.handleSendMessage (Some again) later s') = Some (current, again)).
Proof.
  intros Hthrow outcome s'. subst outcome s'.
  rewrite (ChatFacts.sendMessageToGemini_throw _ _ _ _ Hthrow).
  split; [reflexivity|]. split.
  - exists (App.errorMessage now). repeat split.
  - split; [reflexivity|]. split; [reflexivity|].
    intros again later current Hne Hchat.
    unfold App.handleSendMessage. simpl. rewrite Hchat.
    destruct (String.eqb_spec again "") as [->|_]; [congruence|].
    simpl. destruct (String.eqb_spec again "") as [->|_]; [congruence|].
    reflexivity.
Qed.

(** A run of C7: the pending request of [Examples.waiting] fails. *)
Lemma failed_send_appends_one_error_entry_witness :
  let outcome :=
    GeminiService.sendMessageToGemini Examples.failing
      (GeminiService.createChatSession standard) "What is a fever?" in
  let s' := App.handleSendMessage_resume outcome 2000 (App.app Examples.waiting) in
  outcome = Throw (Error "API key not valid") /\
  (exists entry,
     App.messages s' = App.messages (App.app Examples.waiting) ++ [entry] /\
     isError entry = Some true /\
     text entry =
       "I'm having trouble connecting right now. Please check your internet connection and try again." /\
     role entry = model) /\
  App.isLoading s' = false /\
  App.chatSessionRef s' = App.chatSessionRef (App.app Examples.waiting) /\
  (forall (again : string) (later : Z) (current : Chat),
     again <> "" ->
     App.chatSessionRef (App.app Examples.waiting) = Some current ->
     snd (App.handleSendMessage (Some again) later s') = Some (current, again)).
Proof.
  apply (failed_send_appends_one_error_entry Examples.failing
           (GeminiService.createChatSession standard) "What is a fever?"
           (Error "API key not valid") 2000 (App.app Examples.waiting)).
  reflexivity.
Defined.

(* ===================================================================== *)
(** ** The code on concrete inputs *)
(* ===================================================================== *)

Module Runs.

Import GeminiService.

Example dedup_keeps_last_title_in_first_place :
  sendMessageToGemini Examples.answering (createChatSession standard) "vitamin d"
  = Ok {| reply_text := Some "Vitamin D supports bone health.";
          reply_sources :=
            [ {| title := "Second"; uri := "https://a.example" |};
              {| title := "B"; uri := "https://b.example" |} ] |}.
Proof. reflexivity. Qed.

Example thinking_session_has_budget :
  createChatSession thinking =
  {| chat_model := "gemini-3-pro-preview";
     chat_config := {| systemInstruction := SYSTEM_INSTRUCTION;
                       googleSearch := true;
                       thinkingBudget := Some 32768 |} |}.
Proof. reflexivity. Qed.

Example speech_of_two_samples :
  Speech.generateSpeech Examples.tts_audio Examples.contexts
    AudioUtils.decodeAudio "Drink water."
  = Ok (Some {| channelData := [32767 # 32768; -32768 # 32768]%Q;
                sampleRate := 24000 |}).
Proof. vm_compute. reflexivity. Qed.

Example speech_of_odd_payload_is_absent :
  Speech.generateSpeech
    (fun _ => Ok {| response_text := None;
                    candidates :=
                      Some [ {| content := Some (Examples.audio_part "AAAA");
                                groundingMetadata := None |} ] |})
    Examples.contexts AudioUtils.decodeAudio "Drink water."
  = Ok None.
Proof. vm_compute. reflexivity. Qed.

Example upload_bytes_little_endian :
  AudioUtils.encode_pcm [1; -1; 1 # 2]%Q = [255; 127; 1; 128; 0; 64].
Proof. vm_compute. reflexivity. Qed.

Example trim_both_ends : App.trim "  ab c  " = "ab c".
Proof. reflexivity. Qed.

Example trim_no_break_spaces :
  App.trim (of_bytes [194; 160; 104; 105; 194; 160; 226; 128; 169]%N) = "hi".
Proof. reflexivity. Qed.

Example no_break_space_disables_send :
  AppView.sendDisabled
    (App.setInputValue (of_bytes [194; 160]%N) App.mount) = true.
Proof. reflexivity. Qed.

Example speech_of_no_sample_is_absent :
  Speech.generateSpeech Examples.tts_audio Examples.contexts
    (fun _ => Ok []) "Drink water." = Ok None.
Proof. reflexivity. Qed.

Example question_and_answer :
  App.messages
    (App.app
       (App.run App.start
          [ App.Typed " What is a fever? ";
            App.Send None 1000;
            App.Settle (Ok Examples.grounded_response) 2000 ]))
  = [ {| id := "1000"; role := user; text := "What is a fever?";
         timestamp := 1000; isError := None; sources := None |};
      {| id := "2001"; role := model;
         text := "Vitamin D supports bone health.";
         timestamp := 2000; isError := None;
         sources :=
           Some [ {| title := "Second"; uri := "https://a.example" |};
                  {| title := "B"; uri := "https://b.example" |} ] |} ].
Proof. vm_compute. reflexivity. Qed.

Example malformed_audio_skips_the_interrupt :
  Live.nextStartTime
    (Live.state
       (LiveService.handleServerMessage
          AudioUtils.decodeAudio AudioUtils.decodePcmAudioData
          {| LiveService.serverContent :=
               Some {| LiveService.modelTurn := Some (Examples.audio_part "AAA");
                       LiveService.interrupted := Some true |} |}
          5%Q
          (Live.set_nextStartTime 9%Q Examples.open_session)))
  = 9%Q.
Proof. reflexivity. Qed.

End Runs.

(* ===================================================================== *)
(** ** Further facts: the lifecycle of the voice session *)
(* ===================================================================== *)

Module LifecycleFacts.

Import Live LiveService.

Lemma cleanup_eq (s : LiveSession) :
  cleanup s = (Ok tt, dropped s, releases s).
Proof.
  destruct s as [ic oc st pr so nst se ia].
  destruct ic, oc, st, pr, so;
    unfold releases, dropped, cleanup, mbind, this, emit, assign, mret;
    simpl; rewrite <- ?app_assoc; simpl; rewrite ?app_nil_r;
    reflexivity.
Qed.

Lemma releases_dropped (s : LiveSession) : releases (dropped s) = [].
Proof. reflexivity. Qed.

Lemma dropped_dropped (s : LiveSession) : dropped (dropped s) = dropped s.
Proof. reflexivity. Qed.

Lemma disconnect_eq (s : LiveSession) :
  disconnect s =
  (Ok tt, dropped (set_isActive false s), releases s).
Proof.
  unfold disconnect, mbind, assign. rewrite cleanup_eq. reflexivity.
Qed.

Lemma onclose_eq (s : LiveSession) :
  onclose s =
  (Ok tt, dropped (set_isActive false s), CallOnClose :: releases s).
Proof.
  unfold onclose, mbind, assign, emit. rewrite cleanup_eq. reflexivity.
Qed.


End LifecycleFacts.

(** X1: [cleanup] releases exactly what the session holds: one call per
    non-null field among processor, source, every track of the stream,
    input context and output context, in that order and nothing else; it
    returns normally, leaves the five fields null and does not touch the
    cursor, the session handle or the active flag. *)
Theorem cleanup_releases_exactly_what_is_held (s : Live.LiveSession) :
  LiveService.cleanup s = (Ok tt, dropped s, releases s) /\
  released (Live.state (LiveService.cleanup s)) = true /\
  Live.nextStartTime (Live.state (LiveService.cleanup s)) = Live.nextStartTime s /\
  Live.session (Live.state (LiveService.cleanup s)) = Live.session s /\
  Live.isActive (Live.state (LiveService.cleanup s)) = Live.isActive s.
Proof.
  rewrite LifecycleFacts.cleanup_eq. repeat split.
Qed.

(** X2: [cleanup] and [disconnect] are idempotent: run a second time they
    make no call at all and leave the session as the first run left
    it. *)
Theorem disconnect_twice_is_noop (s : Live.LiveSession) :
  LiveService.cleanup (Live.state (LiveService.cleanup s)) =
    (Ok tt, Live.state (LiveService.cleanup s), []) /\
  LiveService.disconnect (Live.state (LiveService.disconnect s)) =
    (Ok tt, Live.state (LiveService.disconnect s), []).
Proof.
  split.
  - rewrite (LifecycleFacts.cleanup_eq s). unfold Live.state. simpl.
    rewrite LifecycleFacts.cleanup_eq. reflexivity.
  - rewrite (LifecycleFacts.disconnect_eq s). unfold Live.state. simpl.
    rewrite LifecycleFacts.disconnect_eq. reflexivity.
Qed.





Module InboundFacts.

Import Live LiveService.

Section WithAudioUtils.

Variable decodeAudio : string -> exc (list Z).
Variable decodePcmAudioData : list Z -> AudioContext -> Z -> exc AudioBuffer.

Lemma handle_without_output (m : LiveServerMessage) (t : Q)
    (s : LiveSession) :
  outputContext s = None ->
  effects (handleServerMessage decodeAudio decodePcmAudioData m t s) = [] /\
  outputContext
    (state (handleServerMessage decodeAudio decodePcmAudioData m t s)) = None.
Proof.
  intro Hc.
  pose proof (LiveFacts.handleServerMessage_outputContext
                decodeAudio decodePcmAudioData m t s) as Hout.
  rewrite Hc in Hout. split; [|exact Hout].
  destruct (LiveFacts.handleServerMessage_cases
              decodeAudio decodePcmAudioData m t s)
    as [(e & H)|[H|(c & b & Hsome & _)]].
  - rewrite H. reflexivity.
  - rewrite H. reflexivity.
  - congruence.
Qed.

End WithAudioUtils.

End InboundFacts.

(** X5: once the output context is null, as after [cleanup], no sequence
    of inbound messages makes any call: nothing is scheduled for playback
    and [onAudioData] is not invoked, whatever the messages carry and
    whatever the decoders would do. *)
Theorem closed_session_plays_nothing
    (decodeAudio : string -> exc (list Z))
    (decodePcmAudioData : list Z -> AudioContext -> Z -> exc AudioBuffer)
    (events : list LiveService.Inbound) (s : Live.LiveSession) :
  Live.outputContext s = None ->
  snd (deliver decodeAudio decodePcmAudioData events s) = [] /\
  Live.outputContext
    (fst (deliver decodeAudio decodePcmAudioData events s)) = None.
Proof.
  revert s. induction events as [|[m t] rest IH]; simpl; intros s Hc.
  - split; [reflexivity|exact Hc].
  - destruct (InboundFacts.handle_without_output
                decodeAudio decodePcmAudioData m t s Hc) as [He Hs].
    specialize (IH _ Hs).
    destruct (deliver decodeAudio decodePcmAudioData rest
                (Live.state
                   (LiveService.handleServerMessage
                      decodeAudio decodePcmAudioData m t s))) as [s' effs].
    simpl in *. rewrite He. simpl. exact IH.
Qed.

(** A run of X5: audio arrives after a disconnect. *)
Lemma closed_session_plays_nothing_witness :
  snd (deliver AudioUtils.decodeAudio AudioUtils.decodePcmAudioData
         Examples.steady_playback
         (Live.state (LiveService.disconnect Examples.open_session))) = [] /\
  Live.outputContext
    (fst (deliver AudioUtils.decodeAudio AudioUtils.decodePcmAudioData
            Examples.steady_playback
            (Live.state (LiveService.disconnect Examples.open_session))))
  = None.
Proof.
  apply (closed_session_plays_nothing
           AudioUtils.decodeAudio AudioUtils.decodePcmAudioData
           Examples.steady_playback
           (Live.state (LiveService.disconnect Examples.open_session))).
  reflexivity.
Defined.

(** X6: a buffer is never scheduled in the past or before the cursor:
    whenever handling a message starts a buffer source, its start time is
    at least the clock reading and at least the cursor before the
    message, the same buffer is reported to [onAudioData], and unless the
    message is also an interruption the cursor afterwards is the start
    time plus the duration of the buffer. *)
Theorem scheduled_start_not_in_the_past
    (decodeAudio : string -> exc (list Z))
    (decodePcmAudioData : list Z -> AudioContext -> Z -> exc AudioBuffer)
    (message : LiveService.LiveServerMessage) (currentTime : Q)
    (s : Live.LiveSession) (when : Q) (buffer : AudioBuffer) :
  let r := LiveService.handleServerMessage
             decodeAudio decodePcmAudioData message currentTime s in
  In (Live.BufferSourceStart when buffer) (Live.effects r) ->
  (currentTime <= when)%Q /\
  (Live.nextStartTime s <= when)%Q /\
  Live.effects r =
    [Live.BufferSourceStart when buffer; Live.CallOnAudioData buffer] /\
  (LiveService.interruptedOf message = false ->
   Live.nextStartTime (Live.state r) = (when + duration buffer)%Q).
Proof.
  intros r Hin. subst r.
  destruct (LiveFacts.handleServerMessage_cases
              decodeAudio decodePcmAudioData message currentTime s)
    as [(e & H)|[H|(c & b & _ & H)]];
    rewrite H in *; unfold Live.effects, Live.state in *; simpl in *.
  - contradiction.
  - contradiction.
  - destruct Hin as [Heq|[Heq|[]]]; [|discriminate].
    inversion Heq; subst when buffer.
    split; [apply Q.le_max_r|]. split; [apply Q.le_max_l|].
    split; [reflexivity|]. intro Hno. rewrite Hno. reflexivity.
Qed.

(** A run of X6: audio at clock reading 5 on a fresh open session. *)
Lemma scheduled_start_not_in_the_past_witness :
  let r := LiveService.handleServerMessage
             AudioUtils.decodeAudio AudioUtils.decodePcmAudioData
             Examples.audio_message 5%Q Examples.open_session in
  let buffer := {| channelData := [0 # 32768; 0 # 32768]%Q;
                   sampleRate := 24000 |} in
  (5 <= 5)%Q /\
  (Live.nextStartTime Examples.open_session <= 5)%Q /\
  Live.effects r =
    [Live.BufferSourceStart 5%Q buffer; Live.CallOnAudioData buffer] /\
  (LiveService.interruptedOf Examples.audio_message = false ->
   Live.nextStartTime (Live.state r) = (5 + duration buffer)%Q).
Proof.
  apply (scheduled_start_not_in_the_past
           AudioUtils.decodeAudio AudioUtils.decodePcmAudioData
           Examples.audio_message 5%Q Examples.open_session 5%Q
           {| channelData := [0 # 32768; 0 # 32768]%Q; sampleRate := 24000 |}).
  left. reflexivity.
Defined.

(** X7: a handler that throws has done nothing: when handling a message
    fails (a model turn without parts, a payload that does not decode),
    the session is exactly as before and no call was made; in particular
    an interrupted flag on such a message does not reset the cursor. *)
Theorem failed_message_changes_nothing
    (decodeAudio : string -> exc (list Z))
    (decodePcmAudioData : list Z -> AudioContext -> Z -> exc AudioBuffer)
    (message : LiveService.LiveServerMessage) (currentTime : Q)
    (s : Live.LiveSession) (e : error) :
  let r := LiveService.handleServerMessage
             decodeAudio decodePcmAudioData message currentTime s in
  Live.result r = Throw e ->
  Live.state r = s /\ Live.effects r = [].
Proof.
  intros r Hthrow. subst r.
  destruct (LiveFacts.handleServerMessage_cases
              decodeAudio decodePcmAudioData message currentTime s)
    as [(e' & H)|[H|(c & b & _ & H)]];
    rewrite H in *; unfold Live.result, Live.effects, Live.state in *;
    simpl in *.
  - split; reflexivity.
  - discriminate.
  - discriminate.
Qed.

(** A run of X7: an interruption whose audio payload is not base64. *)
Lemma failed_message_changes_nothing_witness :
  let s := Live.set_nextStartTime 9%Q Examples.open_session in
  let r := LiveService.handleServerMessage
             AudioUtils.decodeAudio AudioUtils.decodePcmAudioData
             {| LiveService.serverContent :=
                  Some {| LiveService.modelTurn := Some (Examples.audio_part "AAA");
                          LiveService.interrupted := Some true |} |}
             5%Q s in
  Live.state r = s /\ Live.effects r = [].
Proof.
  apply (failed_message_changes_nothing
           AudioUtils.decodeAudio AudioUtils.decodePcmAudioData
           {| LiveService.serverContent :=
                Some {| LiveService.modelTurn := Some (Examples.audio_part "AAA");
                        LiveService.interrupted := Some true |} |}
           5%Q (Live.set_nextStartTime 9%Q Examples.open_session)
           (Error "The string to be decoded is not correctly encoded.")).
  reflexivity.
Defined.


(** X9: [onopen] always marks the session active and calls [onOpen], but
    it builds the capture graph only when both the input context and the
    stream are present: then the source and the processor are set and
    connected; otherwise, as when the open arrives after a cleanup, no
    node is created and no other field changes. *)
Theorem onopen_builds_graph_only_with_context_and_stream
    (s : Live.LiveSession) :
  Live.isActive (Live.state (LiveService.onopen s)) = true /\
  (forall c st, Live.inputContext s = Some c -> Live.stream s = Some st ->
     LiveService.onopen s =
     (Ok tt,
      Live.set_processor (Some tt)
        (Live.set_source (Some tt) (Live.set_isActive true s)),
      [Live.CallOnOpen; Live.InputGraphConnect])) /\
  (Live.inputContext s = None \/ Live.stream s = None ->
     LiveService.onopen s =
     (Ok tt, Live.set_isActive true s, [Live.CallOnOpen])).
Proof.
  unfold LiveService.onopen, LiveService.startAudioInput, Live.mbind,
    Live.assign, Live.emit, Live.this, Live.mret.
  destruct s as [ic oc st pr so nst se ia]. simpl.
  split; [destruct ic, st; reflexivity|]. split.
  - intros c st' Hc Hst. rewrite Hc, Hst. reflexivity.
  - intros [H|H]; rewrite H; [|destruct ic]; reflexivity.
Qed.

(** A run of X9: the open arrives after the session was disconnected. *)
Lemma onopen_builds_graph_only_with_context_and_stream_witness :
  LiveService.onopen (Live.state (LiveService.disconnect Examples.open_session))
  = (Ok tt,
     Live.set_isActive true
       (Live.state (LiveService.disconnect Examples.open_session)),
     [Live.CallOnOpen]).
Proof.
  apply (proj2 (proj2 (onopen_builds_graph_only_with_context_and_stream
           (Live.state (LiveService.disconnect Examples.open_session))))).
  left. reflexivity.
Defined.

(** X10: captured audio goes upstream only while the session is active at
    both moments: when the chunk is captured and when the session promise
    delivers.  After [disconnect] or a remote close, a new chunk is not
    even encoded and a chunk queued earlier is dropped. *)
Theorem capture_stops_with_the_session
    (createPcmBlob : list Q -> Capture.Blob)
    (inputData : list Q) (s later : Live.LiveSession) :
  (forall queued,
     Capture.onaudioprocess createPcmBlob inputData s = Some queued ->
     Capture.thenSend queued later <> [] ->
     Live.isActive s = true /\ Live.isActive later = true /\
     queued = createPcmBlob inputData /\
     Capture.thenSend queued later = [queued]) /\
  Capture.onaudioprocess createPcmBlob inputData
    (Live.state (LiveService.disconnect s)) = None /\
  Capture.onaudioprocess createPcmBlob inputData
    (Live.state (LiveService.onclose s)) = None /\
  (forall queued,
     Capture.thenSend queued (Live.state (LiveService.disconnect s)) = [] /\
     Capture.thenSend queued (Live.state (LiveService.onclose s)) = []).
Proof.
  rewrite LifecycleFacts.onclose_eq, LifecycleFacts.disconnect_eq.
  unfold Capture.onaudioprocess, Capture.thenSend, Live.state. simpl.
  split; [|repeat split].
  intros queued Hq Hsend.
  destruct (Live.isActive s); simpl in Hq; [|discriminate].
  destruct (Live.isActive later); [|congruence].
  inversion Hq. repeat split.
Qed.

(** A run of X10: a chunk captured on an open session whose send runs
    while the session is still open. *)
Lemma capture_stops_with_the_session_witness :
  let blob := {| Capture.blob_data := "AAAAAA==";
                 Capture.blob_mimeType := "audio/pcm;rate=16000" |} in
  Live.isActive Examples.open_session = true /\
  Live.isActive Examples.open_session = true /\
  blob = blob /\
  Capture.thenSend blob Examples.open_session = [blob].
Proof.
  apply (proj1 (capture_stops_with_the_session
           (fun _ => {| Capture.blob_data := "AAAAAA==";
                        Capture.blob_mimeType := "audio/pcm;rate=16000" |})
           [0%Q; 0%Q] Examples.open_session Examples.open_session)).
  - reflexivity.
  - discriminate.
Defined.

(* ===================================================================== *)
(** ** Further facts: citations and speech *)
(* ===================================================================== *)

Module SourceFacts.

Import GeminiService.

Lemma set_fresh {V : Type} (m : JsMap.t V) (k : string) (v : V) :
  ~ In k (JsMap.keys m) -> JsMap.set m k v = m ++ [(k, v)].
Proof.
  unfold JsMap.keys.
  induction m as [|[k' v'] rest IH]; simpl; intro Hn.
  - reflexivity.
  - destruct (String.eqb_spec k' k) as [->|Hne].
    + exfalso. apply Hn. left. reflexivity.
    + rewrite IH; [reflexivity|]. intro H. apply Hn. right. exact H.
Qed.

Lemma of_entries_distinct (l : list GroundingSource) :
  NoDup (map uri l) -> JsMap.of_entries (entries l) = entries l.
Proof.
  induction l as [|x l IH] using rev_ind; intro Hnd.
  - reflexivity.
  - unfold entries in *. rewrite map_app in *. simpl in *.
    rewrite MapFacts.of_entries_snoc. simpl.
    apply NoDup_remove in Hnd. rewrite app_nil_r in Hnd.
    destruct Hnd as [Hnd Hnotin].
    rewrite (IH Hnd). apply set_fresh.
    unfold JsMap.keys. rewrite map_map. simpl. exact Hnotin.
Qed.

Lemma uniqueSources_distinct (l : list GroundingSource) :
  NoDup (map uri l) -> uniqueSources l = l.
Proof.
  intro Hnd. unfold uniqueSources. fold (entries l).
  rewrite (of_entries_distinct l Hnd).
  unfold JsMap.values, entries. rewrite map_map. simpl. apply map_id.
Qed.

Lemma first_occurrences_length (l : list string) :
  (List.length (first_occurrences l) <= List.length l)%nat.
Proof.
  induction l as [|x rest IH]; simpl; [lia|].
  pose proof (filter_length_le
                (fun y => negb (String.eqb x y)) (first_occurrences rest)).
  lia.
Qed.

End SourceFacts.

(** X11: deduplication loses nothing it need not lose and is stable: a
    list whose locators are already distinct is returned unchanged,
    deduplicating twice equals deduplicating once, and the result is
    never longer than the input. *)
Theorem uniqueSources_stable (sources : list GroundingSource) :
  (NoDup (map uri sources) ->
   GeminiService.uniqueSources sources = sources) /\
  GeminiService.uniqueSources (GeminiService.uniqueSources sources)
    = GeminiService.uniqueSources sources /\
  (List.length (GeminiService.uniqueSources sources)
   <= List.length sources)%nat.
Proof.
  split; [apply SourceFacts.uniqueSources_distinct|]. split.
  - apply SourceFacts.uniqueSources_distinct.
    rewrite DedupFacts.uniqueSources_uris.
    apply DedupFacts.first_occurrences_NoDup.
  - rewrite <- (length_map uri (GeminiService.uniqueSources sources)).
    rewrite DedupFacts.uniqueSources_uris.
    rewrite <- (length_map uri sources).
    apply SourceFacts.first_occurrences_length.
Qed.

(** A run of X11: two sources with different locators. *)
Lemma uniqueSources_stable_witness :
  GeminiService.uniqueSources
    [ {| title := "A"; uri := "https://a.example" |};
      {| title := "A"; uri := "https://b.example" |} ]
  = [ {| title := "A"; uri := "https://a.example" |};
      {| title := "A"; uri := "https://b.example" |} ].
Proof.
  apply (proj1 (uniqueSources_stable
           [ {| title := "A"; uri := "https://a.example" |};
             {| title := "A"; uri := "https://b.example" |} ])).
  repeat constructor; simpl; intuition discriminate.
Defined.

(** X12: [sendMessageToGemini] fails exactly when the chat call fails,
    and then with the same error; on a response it never fails, passes
    the reply text through untouched, reads citations from the first
    candidate only, and returns an empty source list when the response
    has no candidate or the first candidate has no grounding metadata or
    no chunks. *)
Theorem sendMessageToGemini_passes_text_and_errors
    (sendMessage : Chat -> string -> exc GenerateContentResponse)
    (chat : Chat) (message : string) :
  let r := GeminiService.sendMessageToGemini sendMessage chat message in
  (forall e, r = Throw e <-> sendMessage chat message = Throw e) /\
  (forall result, sendMessage chat message = Ok result ->
     exists reply,
       r = Ok reply /\
       GeminiService.reply_text reply = response_text result /\
       (forall first others,
          candidates result = Some (first :: others) ->
          GeminiService.reply_sources reply =
          GeminiService.uniqueSources
            (GeminiService.extractSources
               (match groundingMetadata first with
                | Some {| groundingChunks := Some chunks |} => chunks
                | _ => []
                end))) /\
       (candidates result = None \/ candidates result = Some [] ->
        GeminiService.reply_sources reply = [])).
Proof.
  intro r. subst r. split.
  - intro e. unfold GeminiService.sendMessageToGemini.
    destruct (sendMessage chat message) as [result|e']; simpl.
    + split; discriminate.
    + split; intro H; inversion H; reflexivity.
  - intros result Hres.
    rewrite (ChatFacts.sendMessageToGemini_ok _ _ _ _ Hres).
    eexists. split; [reflexivity|]. simpl. split; [reflexivity|]. split.
    + intros first others Hc. unfold GeminiService.groundingChunksOf.
      rewrite Hc. destruct (groundingMetadata first) as [[[chunks|]]|];
        reflexivity.
    + intros [Hc|Hc]; unfold GeminiService.groundingChunksOf; rewrite Hc;
        reflexivity.
Qed.

(** A run of X12: the example response and its first candidate. *)
Lemma sendMessageToGemini_passes_text_and_errors_witness :
  exists reply,
    GeminiService.sendMessageToGemini Examples.answering
      (GeminiService.createChatSession fast) "vitamin d" = Ok reply /\
    GeminiService.reply_text reply = Some "Vitamin D supports bone health.".
Proof.
  destruct (proj2 (sendMessageToGemini_passes_text_and_errors
                     Examples.answering
                     (GeminiService.createChatSession fast) "vitamin d")
                  Examples.grounded_response eq_refl)
    as (reply & Hr & Ht & _).
  exists reply. split; [exact Hr|exact Ht].
Defined.

Module SpeechFacts.

Import TypedArray Speech.

Lemma int16_of_bytes_range (lo hi : Z) :
  is_byte lo -> is_byte hi -> -32768 <= int16_of_bytes lo hi <= 32767.
Proof.
  unfold is_byte, int16_of_bytes. intros Hlo Hhi.
  destruct (Z.leb_spec 32768 (lo + 256 * hi)); lia.
Qed.

Lemma int16_pairs_even (n : nat) :
  forall bytes : list Z,
    Forall is_byte bytes -> List.length bytes = (2 * n)%nat ->
    exists ints,
      int16_pairs bytes = Some ints /\ List.length ints = n /\
      Forall (fun v => -32768 <= v <= 32767) ints.
Proof.
  induction n as [|n IH]; intros bytes Hall Hlen.
  - destruct bytes; [|discriminate]. exists []. repeat split. constructor.
  - destruct bytes as [|lo [|hi rest]]; simpl in Hlen; try lia.
    inversion Hall as [|? ? Hlo Hall']; subst.
    inversion Hall' as [|? ? Hhi Hrest]; subst.
    destruct (IH rest Hrest) as (ints & Hp & Hl & Hr); [lia|].
    exists (int16_of_bytes lo hi :: ints). simpl. rewrite Hp.
    repeat split; [simpl; lia|].
    constructor; [apply int16_of_bytes_range; assumption|exact Hr].
Qed.

Lemma int16_pairs_odd (n : nat) :
  forall bytes : list Z,
    List.length bytes = S (2 * n) -> int16_pairs bytes = None.
Proof.
  induction n as [|n IH]; intros bytes Hlen.
  - destruct bytes as [|b [|]]; try discriminate. reflexivity.
  - destruct bytes as [|lo [|hi rest]]; simpl in Hlen; try lia.
    simpl. rewrite (IH rest); [reflexivity|lia].
Qed.

Lemma decode_sample_range (v : Z) :
  -32768 <= v <= 32767 -> (-1 <= decode_sample v /\ decode_sample v < 1)%Q.
Proof.
  intro Hv. unfold decode_sample, Qle, Qlt, Qdiv, Qmult, Qinv, inject_Z.
  simpl. lia.
Qed.

Lemma or_default_truthy (o : option string) :
  truthy o = true -> o = Some (or_default o "").
Proof.
  destruct o as [x|]; simpl; [|discriminate].
  destruct (String.eqb x ""); [discriminate|reflexivity].
Qed.

End SpeechFacts.

(** X13: when the synthesis response carries an audio payload that
    decodes to an even number of bytes, at least two, and the audio
    context can be built, [generateSpeech] returns a buffer at 24000 Hz
    with one sample per two bytes, each the little-endian 16-bit integer
    divided by 32768, so every sample lies in [-1, 1).  When the payload
    decodes to no byte at all, [createBuffer] refuses the length 0 and
    [generateSpeech] returns null. *)
Theorem generateSpeech_returns_normalised_samples
    (generateContent : string -> exc GenerateContentResponse)
    (newAudioContext : Z -> exc AudioContext)
    (decodeAudio : string -> exc (list Z))
    (text : string) (response : GenerateContentResponse)
    (ctx : AudioContext) (bytes : list Z) :
  generateContent text = Ok response ->
  truthy (Speech.inlineAudioOf response) = true ->
  newAudioContext 24000 = Ok ctx ->
  decodeAudio (or_default (Speech.inlineAudioOf response) "") = Ok bytes ->
  Forall is_byte bytes ->
  Nat.even (List.length bytes) = true ->
  (bytes = [] ->
   Speech.generateSpeech generateContent newAudioContext decodeAudio text
     = Ok None) /\
  (bytes <> [] ->
   exists ints,
     TypedArray.int16_pairs bytes = Some ints /\
     Speech.generateSpeech generateContent newAudioContext decodeAudio text =
       Ok (Some {| channelData := map Speech.decode_sample ints;
                   sampleRate := 24000 |}) /\
     (2 * List.length ints = List.length bytes)%nat /\
     Forall (fun y => (-1 <= y /\ y < 1)%Q) (map Speech.decode_sample ints)).
Proof.
  intros Hres Haudio Hctx Hdec Hbytes Heven.
  assert (Hgen :
    Speech.generateSpeech generateContent newAudioContext decodeAudio text =
    try_catch
      (buffer <- Speech.pcmToBuffer bytes ;; ret (Some buffer))%exc
      (fun _ => ret None)).
  { unfold Speech.generateSpeech. rewrite Hres. simpl.
    rewrite Haudio. simpl. rewrite Hctx. simpl. rewrite Hdec. reflexivity. }
  split.
  - intro He. subst bytes. rewrite Hgen.
    rewrite (CodecFacts.pcmToBuffer_empty [] eq_refl). reflexivity.
  - intro Hne.
    apply Nat.even_spec in Heven. destruct Heven as [n Hn].
    destruct (SpeechFacts.int16_pairs_even n bytes Hbytes Hn)
      as (ints & Hp & Hl & Hr).
    assert (Hints : ints <> []).
    { intro H. subst ints. simpl in Hl. subst n.
      destruct bytes; [congruence|discriminate]. }
    exists ints. split; [exact Hp|]. split; [|split].
    + rewrite Hgen, (CodecFacts.pcmToBuffer_ok bytes ints Hp Hints).
      reflexivity.
    + lia.
    + apply Forall_map. eapply Forall_impl; [|exact Hr].
      intros v Hv. apply SpeechFacts.decode_sample_range. exact Hv.
Qed.

(** A run of X13: the payload of two samples, 32767 and -32768. *)
Lemma generateSpeech_returns_normalised_samples_witness :
  exists ints,
    TypedArray.int16_pairs [255; 127; 0; 128] = Some ints /\
    Speech.generateSpeech Examples.tts_audio Examples.contexts
      AudioUtils.decodeAudio "Drink water." =
      Ok (Some {| channelData := map Speech.decode_sample ints;
                  sampleRate := 24000 |}) /\
    (2 * List.length ints = List.length [255; 127; 0; 128])%nat /\
    Forall (fun y => (-1 <= y /\ y < 1)%Q) (map Speech.decode_sample ints).
Proof.
  assert (Hb : Forall is_byte [255; 127; 0; 128])
    by (repeat constructor; unfold is_byte; lia).
  apply (proj2 (generateSpeech_returns_normalised_samples
           Examples.tts_audio Examples.contexts AudioUtils.decodeAudio
           "Drink water."
           {| response_text := None;
              candidates :=
                Some [ {| content := Some (Examples.audio_part "/38AgA==");
                          groundingMetadata := None |} ] |}
           {| ctx_sampleRate := 24000 |} [255; 127; 0; 128]
           eq_refl eq_refl eq_refl eq_refl Hb eq_refl)).
  discriminate.
Defined.

(** X14: every failure after the response arrived also ends in the
    absent result: when the response carries an audio payload but the
    audio context cannot be built, or the payload does not decode, or it
    decodes to an odd number of bytes, [generateSpeech] returns null. *)
Theorem generateSpeech_absent_on_bad_payload
    (generateContent : string -> exc GenerateContentResponse)
    (newAudioContext : Z -> exc AudioContext)
    (decodeAudio : string -> exc (list Z))
    (text : string) (response : GenerateContentResponse) :
  generateContent text = Ok response ->
  truthy (Speech.inlineAudioOf response) = true ->
  let r := Speech.generateSpeech generateContent newAudioContext decodeAudio text in
  (forall e, newAudioContext 24000 = Throw e -> r = Ok None) /\
  (forall e,
     decodeAudio (or_default (Speech.inlineAudioOf response) "") = Throw e ->
     r = Ok None) /\
  (forall bytes,
     decodeAudio (or_default (Speech.inlineAudioOf response) "") = Ok bytes ->
     Nat.odd (List.length bytes) = true ->
     r = Ok None).
Proof.
  intros Hres Haudio r. subst r. unfold Speech.generateSpeech.
  rewrite Hres. simpl. rewrite Haudio. simpl.
  split; [|split].
  - intros e H. rewrite H. reflexivity.
  - intros e H. rewrite H.
    destruct (newAudioContext 24000); reflexivity.
  - intros bytes H Hodd. rewrite H.
    apply Nat.odd_spec in Hodd. destruct Hodd as [n Hn].
    assert (Hp : TypedArray.int16_pairs bytes = None).
    { apply (SpeechFacts.int16_pairs_odd n). lia. }
    destruct (newAudioContext 24000); simpl; [|reflexivity].
    unfold Speech.pcmToBuffer, TypedArray.Int16Array_of_buffer.
    rewrite Hp. reflexivity.
Qed.

(** A run of X14: a payload of three bytes. *)
Lemma generateSpeech_absent_on_bad_payload_witness :
  Speech.generateSpeech
    (fun _ => Ok {| response_text := None;
                    candidates :=
                      Some [ {| content := Some (Examples.audio_part "AAAA");
                                groundingMetadata := None |} ] |})
    Examples.contexts AudioUtils.decodeAudio "Drink water."
  = Ok None.
Proof.
  apply (proj2 (proj2 (generateSpeech_absent_on_bad_payload
           (fun _ => Ok {| response_text := None;
                           candidates :=
                             Some [ {| content := Some (Examples.audio_part "AAAA");
                                       groundingMetadata := None |} ] |})
           Examples.contexts AudioUtils.decodeAudio "Drink water."
           {| response_text := None;
              candidates :=
                Some [ {| content := Some (Examples.audio_part "AAAA");
                          groundingMetadata := None |} ] |}
           eq_refl eq_refl)) [0; 0; 0]);
    reflexivity.
Defined.

(* ===================================================================== *)
(** ** Further facts: the conversation view *)
(* ===================================================================== *)

Module ViewFacts.

Import GeminiService App AppView.

Lemma strip_prefix_app (p s rest : string) :
  strip_prefix p s = Some rest -> s = (p ++ rest)%string.
Proof.
  revert s. induction p as [|a p IH]; simpl; intros s H.
  - inversion H. reflexivity.
  - destruct s as [|b s]; [discriminate|].
    destruct (Ascii.eqb_spec a b) as [->|_]; [|discriminate].
    rewrite (IH s H). reflexivity.
Qed.

(** [trimStart] passes over each white-space character of the table. *)
Lemma trimStart_white (ws rest : string) :
  In ws WHITE_SPACE -> trimStart (ws ++ rest)%string = trimStart rest.
Proof.
  unfold WHITE_SPACE. simpl.
  intro H.
  repeat (destruct H as [<-|H]; [reflexivity|]).
  contradiction.
Qed.

Lemma trimStart_blank_upto (n : nat) :
  forall s, blank_upto n s = true -> trimStart s = "".
Proof.
  induction n as [|n IH]; intros s H.
  - destruct s; [reflexivity|discriminate].
  - destruct s as [|c rest]; [reflexivity|].
    change (existsb
              (fun ws =>
                 match strip_prefix ws (String c rest) with
                 | Some tail => blank_upto n tail
                 | None => false
                 end)
              WHITE_SPACE = true) in H.
    apply existsb_exists in H.
    destruct H as (ws & Hin & Hws).
    destruct (strip_prefix ws (String c rest)) as [tail|] eqn:Hp;
      [|discriminate].
    rewrite (strip_prefix_app _ _ _ Hp).
    rewrite (trimStart_white ws tail Hin). apply IH. exact Hws.
Qed.

Lemma trim_blank (s : string) : blank s = true -> trim s = "".
Proof.
  intro H. unfold trim.
  rewrite (trimStart_blank_upto _ s H). reflexivity.
Qed.

(** A send that passes the guard. *)
Lemma handleSendMessage_sends (t : option string) (now : Z) (s : AppState)
    (chat : Chat) :
  chatSessionRef s = Some chat ->
  isLoading s = false ->
  or_default t (trim (inputValue s)) <> "" ->
  handleSendMessage t now s =
  (setIsLoading true
     (setInputValue ""
        (setMessages
           (fun prev => prev ++ [userMessage (or_default t (trim (inputValue s))) now])
           s)),
   Some (chat, or_default t (trim (inputValue s)))).
Proof.
  intros Hchat Hidle Htext. unfold handleSendMessage.
  rewrite Hchat, Hidle.
  destruct (String.eqb_spec (or_default t (trim (inputValue s))) "")
    as [H|_]; [congruence|].
  reflexivity.
Qed.

Lemma or_default_nonempty (x d : string) :
  x <> "" -> or_default (Some x) d = x.
Proof.
  intro H. simpl. destruct (String.eqb_spec x ""); [congruence|reflexivity].
Qed.

Lemma toString_inj (a b : Z) : toString a = toString b -> a = b.
Proof.
  unfold toString. intro H.
  assert (Hn : forall z, Z.to_int z <> Decimal.Pos Decimal.Nil /\
                         Z.to_int z <> Decimal.Neg Decimal.Nil).
  { intro z. destruct z as [|p|p]; simpl; split; try discriminate;
      intro Hp; inversion Hp as [Hq];
      exact (DecimalPos.Unsigned.to_uint_nonnil p Hq). }
  apply DecimalZ.to_int_inj.
  assert (Hs : Some (Z.to_int a) = Some (Z.to_int b)).
  { rewrite <- (NilZero.isi (Z.to_int a)) by apply Hn.
    rewrite <- (NilZero.isi (Z.to_int b)) by apply Hn.
    rewrite H. reflexivity. }
  inversion Hs. reflexivity.
Qed.

Lemma step_loading_iff_in_flight (w : World) (ev : Event) :
  loading_iff_in_flight w -> loading_iff_in_flight (step w ev).
Proof.
  unfold loading_iff_in_flight. intro Hw.
  destruct ev as [t now|sdk now|v|m|c]; simpl.
  - destruct (handleSendMessage t now (app w)) as [s' [req|]] eqn:Hs.
    + apply AppFacts.handleSendMessage_issues in Hs. destruct Hs as [H0 H1].
      destruct Hw as [[Hl _]|[_ Hf]]; [congruence|].
      left. simpl. rewrite Hf. split; [exact H1|eexists; reflexivity].
    + apply AppFacts.handleSendMessage_skips in Hs. subst s'.
      exact Hw.
  - destruct Hw as [[Hl (req & Hf)]|[Hl Hf]]; rewrite Hf.
    + destruct req as [chat message]. right. split; reflexivity.
    + right. split; assumption.
  - exact Hw.
  - rewrite AppFacts.setMode_isLoading. exact Hw.
  - rewrite AppFacts.handleReset_isLoading. exact Hw.
Qed.

Lemma step_keeps_transcript (w : World) (ev : Event) :
  keeps_transcript ev = true ->
  exists suffix,
    messages (app (step w ev)) = messages (app w) ++ suffix /\
    (List.length suffix <= 1)%nat /\
    chatSessionRef (app (step w ev)) = chatSessionRef (app w) /\
    mode (app (step w ev)) = mode (app w).
Proof.
  intro Hk. destruct ev as [t now|sdk now|v|m|c]; simpl in *;
    try discriminate.
  - unfold handleSendMessage.
    destruct (chatSessionRef (app w)) as [chat|] eqn:Hc.
    + destruct (String.eqb _ _ || isLoading (app w)); simpl.
      * exists []. rewrite app_nil_r. repeat split; [simpl; lia|exact Hc].
      * eexists. repeat split; [simpl; lia|exact Hc].
    + exists []. rewrite app_nil_r. simpl. repeat split; [lia|exact Hc].
  - destruct (inFlight w) as [|[chat message] rest].
    + exists []. rewrite app_nil_r. repeat split. simpl. lia.
    + simpl.
      destruct (sendMessageToGemini (fun _ _ => sdk) chat message);
        simpl; eexists; repeat split; simpl; lia.
  - exists []. rewrite app_nil_r. repeat split. simpl. lia.
Qed.

End ViewFacts.

(** X15: an input that is empty or made of white space only, be it the
    white space of one byte or U+00A0, U+FEFF, the line and paragraph
    separators or the other space characters of Unicode, is never sent:
    with no text override (or an empty one) [handleSendMessage] returns
    at its guard, the state is unchanged and no request is issued, and
    the send button is disabled. *)
Theorem blank_input_is_not_sent
    (textOverride : option string) (now : Z) (s : App.AppState) :
  blank (App.inputValue s) = true ->
  textOverride = None \/ textOverride = Some "" ->
  App.handleSendMessage textOverride now s = (s, None) /\
  AppView.sendDisabled s = true.
Proof.
  intros Hblank Ht.
  pose proof (ViewFacts.trim_blank _ Hblank) as Htrim.
  unfold App.handleSendMessage, AppView.sendDisabled.
  rewrite Htrim. split; [|reflexivity].
  destruct Ht as [->| ->]; simpl; destruct (App.chatSessionRef s);
    reflexivity.
Qed.

(** A run of X15: a space, a no-break space, a line separator and a line
    break in the input box. *)
Lemma blank_input_is_not_sent_witness :
  let s := App.setInputValue
             (of_bytes [32; 194; 160; 226; 128; 168; 10]%N) App.mount in
  App.handleSendMessage None 1000 s = (s, None) /\
  AppView.sendDisabled s = true.
Proof.
  apply (blank_input_is_not_sent None 1000
           (App.setInputValue
              (of_bytes [32; 194; 160; 226; 128; 168; 10]%N) App.mount)).
  - vm_compute. reflexivity.
  - left. reflexivity.
Defined.

(** X16: a text handed to [handleSendMessage] directly, as by the
    suggested prompts, is sent as it is whenever a session exists and no
    request is pending, whatever the input box holds: the request carries
    that text, the transcript gains one user entry with it, the loading
    flag is set, and the draft in the input box is cleared.  Each of the
    four suggested prompts is such a text. *)
Theorem prompt_is_sent_verbatim_and_clears_draft
    (prompt : string) (now : Z) (s : App.AppState) (chat : Chat) :
  prompt <> "" ->
  App.chatSessionRef s = Some chat ->
  App.isLoading s = false ->
  let r := App.handleSendMessage (Some prompt) now s in
  snd r = Some (chat, prompt) /\
  App.messages (fst r) = App.messages s ++ [App.userMessage prompt now] /\
  text (App.userMessage prompt now) = prompt /\
  role (App.userMessage prompt now) = user /\
  App.inputValue (fst r) = "" /\
  App.isLoading (fst r) = true /\
  Forall (fun p => p <> "") AppView.SUGGESTED_PROMPTS.
Proof.
  intros Hne Hchat Hidle r. subst r.
  rewrite (ViewFacts.handleSendMessage_sends (Some prompt) now s chat Hchat Hidle)
    by (rewrite (ViewFacts.or_default_nonempty _ _ Hne); exact Hne).
  rewrite (ViewFacts.or_default_nonempty _ _ Hne). simpl.
  repeat split. repeat constructor; discriminate.
Qed.

(** A run of X16: the first suggested prompt while a draft is typed. *)
Lemma prompt_is_sent_verbatim_and_clears_draft_witness :
  let s := App.setInputValue "my draft" App.mount in
  let r := App.handleSendMessage (Some "What are the benefits of Vitamin D?")
             1000 s in
  snd r = Some (GeminiService.createChatSession standard,
                "What are the benefits of Vitamin D?") /\
  App.messages (fst r) =
    App.messages s ++
    [App.userMessage "What are the benefits of Vitamin D?" 1000] /\
  text (App.userMessage "What are the benefits of Vitamin D?" 1000) =
    "What are the benefits of Vitamin D?" /\
  role (App.userMessage "What are the benefits of Vitamin D?" 1000) = user /\
  App.inputValue (fst r) = "" /\
  App.isLoading (fst r) = true /\
  Forall (fun p => p <> "") AppView.SUGGESTED_PROMPTS.
Proof.
  apply (prompt_is_sent_verbatim_and_clears_draft
           "What are the benefits of Vitamin D?" 1000
           (App.setInputValue "my draft" App.mount)
           (GeminiService.createChatSession standard)).
  - discriminate.
  - reflexivity.
  - reflexivity.
Defined.

(** X17: the send button and the guard agree.  When the button is
    enabled and a session exists, a click sends the trimmed input, and so
    does the Enter key without Shift; when the button is disabled, a call
    of the handler without an override sends nothing; Enter with Shift
    and every other key send nothing. *)
Theorem send_button_matches_guard (now : Z) (s : App.AppState) :
  (forall chat, AppView.sendDisabled s = false ->
     App.chatSessionRef s = Some chat ->
     snd (App.handleSendMessage None now s)
       = Some (chat, App.trim (App.inputValue s)) /\
     AppView.handleKeyDown "Enter" false now s
       = App.handleSendMessage None now s) /\
  (AppView.sendDisabled s = true ->
     App.handleSendMessage None now s = (s, None)) /\
  (forall key shiftKey, key <> "Enter" \/ shiftKey = true ->
     AppView.handleKeyDown key shiftKey now s = (s, None)).
Proof.
  unfold AppView.sendDisabled, AppView.handleKeyDown. split; [|split].
  - intros chat Hen Hchat. apply orb_false_iff in Hen.
    destruct Hen as [Htext Hidle].
    split; [|reflexivity].
    rewrite (ViewFacts.handleSendMessage_sends None now s chat Hchat Hidle).
    + reflexivity.
    + simpl. intro H. rewrite H in Htext. discriminate.
  - intro Hdis. unfold App.handleSendMessage. simpl. rewrite Hdis.
    destruct (App.chatSessionRef s); reflexivity.
  - intros key shiftKey [Hk|Hs].
    + destruct (String.eqb_spec key "Enter"); [congruence|reflexivity].
    + rewrite Hs, andb_false_r. reflexivity.
Qed.

(** A run of X17: a question typed between no-break spaces and an
    enabled button. *)
Lemma send_button_matches_guard_witness :
  let s := App.setInputValue
             (of_bytes [194; 160; 104; 105; 63; 194; 160]%N) App.mount in
  snd (App.handleSendMessage None 1000 s)
    = Some (GeminiService.createChatSession standard,
            App.trim (App.inputValue s)) /\
  AppView.handleKeyDown "Enter" false 1000 s
    = App.handleSendMessage None 1000 s.
Proof.
  apply (proj1 (send_button_matches_guard 1000
           (App.setInputValue
              (of_bytes [194; 160; 104; 105; 63; 194; 160]%N) App.mount))
           (GeminiService.createChatSession standard));
    reflexivity.
Defined.

(** X18: when the pending chat call returns a response, the transcript
    gains exactly one entry from the model, not flagged as an error, with
    the deduplicated sources attached; its text is the reply text, or the
    fixed apology when the response has no text or an empty one; and the
    loading flag is cleared. *)
Theorem reply_appends_one_model_entry
    (sendMessage : Chat -> string -> exc GenerateContentResponse)
    (chat : Chat) (message : string) (result : GenerateContentResponse)
    (now : Z) (s : App.AppState) :
  sendMessage chat message = Ok result ->
  let outcome := GeminiService.sendMessageToGemini sendMessage chat message in
  let s' := App.handleSendMessage_resume outcome now s in
  exists entry,
    App.messages s' = App.messages s ++ [entry] /\
    role entry = model /\
    isError entry = None /\
    sources entry =
      Some (GeminiService.uniqueSources
              (GeminiService.extractSources
                 (GeminiService.groundingChunksOf result))) /\
    (forall t, response_text result = Some t -> t <> "" -> text entry = t) /\
    (response_text result = None \/ response_text result = Some "" ->
     text entry =
       "I apologize, but I couldn't generate a response. Please try again.") /\
    App.isLoading s' = false /\
    App.inputValue s' = App.inputValue s.
Proof.
  intros Hres outcome s'. subst outcome s'.
  rewrite (ChatFacts.sendMessageToGemini_ok _ _ _ _ Hres). simpl.
  eexists. split; [reflexivity|]. simpl.
  repeat split.
  - intros t Ht Hne. rewrite Ht. apply ViewFacts.or_default_nonempty.
    exact Hne.
  - intros [H|H]; rewrite H; reflexivity.
Qed.

(** A run of X18: a response without text. *)
Lemma reply_appends_one_model_entry_witness :
  let outcome :=
    GeminiService.sendMessageToGemini
      (fun _ _ => Ok {| response_text := None; candidates := None |})
      (GeminiService.createChatSession standard) "What is a fever?" in
  let s' := App.handleSendMessage_resume outcome 2000 (App.app Examples.waiting) in
  exists entry,
    App.messages s' = App.messages (App.app Examples.waiting) ++ [entry] /\
    text entry =
      "I apologize, but I couldn't generate a response. Please try again." /\
    sources entry = Some [].
Proof.
  destruct (reply_appends_one_model_entry
              (fun _ _ => Ok {| response_text := None; candidates := None |})
              (GeminiService.createChatSession standard) "What is a fever?"
              {| response_text := None; candidates := None |}
              2000 (App.app Examples.waiting) eq_refl)
    as (entry & Hm & _ & _ & Hs & _ & Ht & _).
  exists entry. split; [exact Hm|]. split; [apply Ht; left; reflexivity|].
  exact Hs.
Defined.

(** X19: after any sequence of events from the first render, the loading
    flag is set exactly while a request is in flight, and then exactly
    one is: the flag is never stuck without a request and no request runs
    without it. *)
Theorem loading_flag_tracks_the_request (events : list App.Event) :
  loading_iff_in_flight (App.run App.start events).
Proof.
  assert (H : forall w, loading_iff_in_flight w ->
                        loading_iff_in_flight (App.run w events)).
  { unfold App.run. induction events as [|ev rest IH]; simpl; intros w Hw.
    - exact Hw.
    - apply IH. apply ViewFacts.step_loading_iff_in_flight. exact Hw. }
  apply H. right. split; reflexivity.
Qed.

(** X20: sending, settling and typing only ever append to the
    transcript: over any such events the earlier transcript is a prefix
    of the later one, at most one entry is added per event, and the
    session and the mode stay as they are. *)
Theorem transcript_is_append_only
    (events : list App.Event) (w : App.World) :
  forallb keeps_transcript events = true ->
  exists suffix,
    App.messages (App.app (App.run w events))
      = App.messages (App.app w) ++ suffix /\
    (List.length suffix <= List.length events)%nat /\
    App.chatSessionRef (App.app (App.run w events))
      = App.chatSessionRef (App.app w) /\
    App.mode (App.app (App.run w events)) = App.mode (App.app w).
Proof.
  unfold App.run. revert w.
  induction events as [|ev rest IH]; simpl; intros w Hall.
  - exists []. rewrite app_nil_r. repeat split. simpl. lia.
  - apply andb_true_iff in Hall. destruct Hall as [Hev Hrest].
    destruct (ViewFacts.step_keeps_transcript w ev Hev)
      as (s1 & Hm1 & Hl1 & Hc1 & Hmode1).
    destruct (IH (App.step w ev) Hrest) as (s2 & Hm2 & Hl2 & Hc2 & Hmode2).
    exists (s1 ++ s2). rewrite Hm2, Hm1, app_assoc, length_app.
    repeat split; [lia|congruence|congruence].
Qed.

(** A run of X20: a question, its answer and a new draft. *)
Lemma transcript_is_append_only_witness :
  exists suffix,
    App.messages
      (App.app
         (App.run Examples.waiting
            [ App.Settle (Ok Examples.grounded_response) 2000;
              App.Typed "And a cough?" ]))
      = App.messages (App.app Examples.waiting) ++ suffix /\
    (List.length suffix <= 2)%nat /\
    App.chatSessionRef
      (App.app
         (App.run Examples.waiting
            [ App.Settle (Ok Examples.grounded_response) 2000;
              App.Typed "And a cough?" ]))
      = App.chatSessionRef (App.app Examples.waiting) /\
    App.mode
      (App.app
         (App.run Examples.waiting
            [ App.Settle (Ok Examples.grounded_response) 2000;
              App.Typed "And a cough?" ]))
      = App.mode (App.app Examples.waiting).
Proof.
  apply (transcript_is_append_only
           [ App.Settle (Ok Examples.grounded_response) 2000;
             App.Typed "And a cough?" ]
           Examples.waiting).
  reflexivity.
Defined.

(** X21: a reset or a change of mode does not cancel a pending request.
    The loading flag stays set, so nothing can be sent in the new
    conversation until the old request settles, and when it does its
    reply or its error entry becomes the only entry of the cleared
    transcript, although it was asked on the session that was
    replaced. *)
Theorem reset_does_not_cancel_pending_request
    (w : App.World) (chat : Chat) (message : string)
    (restart : App.Event) (sdk : exc GenerateContentResponse) (now : Z) :
  App.inFlight w = [(chat, message)] ->
  App.isLoading (App.app w) = true ->
  restart = App.ResetButton true \/
  (exists m, restart = App.ModeButton m /\ m <> App.mode (App.app w)) ->
  let cleared := App.step w restart in
  let settled := App.step cleared (App.Settle sdk now) in
  App.messages (App.app cleared) = [] /\
  App.inFlight cleared = [(chat, message)] /\
  App.isLoading (App.app cleared) = true /\
  (forall t later, snd (App.handleSendMessage t later (App.app cleared)) = None) /\
  (exists entry,
     App.messages (App.app settled) = [entry] /\ role entry = model) /\
  App.isLoading (App.app settled) = false /\
  App.inFlight settled = [] /\
  App.chatSessionRef (App.app settled) =
    Some (GeminiService.createChatSession (App.mode (App.app settled))).
Proof.
  intros Hf Hl Hrestart cleared settled. subst settled cleared.
  assert (Hc : App.messages (App.app (App.step w restart)) = [] /\
               App.inFlight (App.step w restart) = [(chat, message)] /\
               App.isLoading (App.app (App.step w restart)) = true /\
               App.chatSessionRef (App.app (App.step w restart)) =
                 Some (GeminiService.createChatSession
                         (App.mode (App.app (App.step w restart))))).
  { destruct Hrestart as [->|(m & -> & Hne)]; simpl.
    - repeat split; assumption.
    - unfold App.setMode. rewrite (AppFacts.ModelMode_eqb_neq _ _ Hne).
      repeat split; assumption. }
  destruct Hc as (Hm & Hf' & Hl' & Hchat).
  set (w1 := App.step w restart) in *. clearbody w1.
  split; [exact Hm|]. split; [exact Hf'|]. split; [exact Hl'|]. split.
  - intros t later.
    rewrite (AppFacts.handleSendMessage_loading t later _ Hl'). reflexivity.
  - simpl. rewrite Hf'.
    destruct (GeminiService.sendMessageToGemini (fun _ _ => sdk) chat message)
      as [reply|e]; simpl; rewrite Hm; simpl;
      (split; [eexists; split; reflexivity|]);
      repeat split; exact Hchat.
Qed.

(** A run of X21: the conversation is reset while the first question is
    pending. *)
Lemma reset_does_not_cancel_pending_request_witness :
  let cleared := App.step Examples.waiting (App.ResetButton true) in
  let settled :=
    App.step cleared (App.Settle (Ok Examples.grounded_response) 2000) in
  App.messages (App.app cleared) = [] /\
  App.inFlight cleared =
    [(GeminiService.createChatSession standard, "What is a fever?")] /\
  App.isLoading (App.app cleared) = true /\
  (forall t later, snd (App.handleSendMessage t later (App.app cleared)) = None) /\
  (exists entry,
     App.messages (App.app settled) = [entry] /\ role entry = model) /\
  App.isLoading (App.app settled) = false /\
  App.inFlight settled = [] /\
  App.chatSessionRef (App.app settled) =
    Some (GeminiService.createChatSession (App.mode (App.app settled))).
Proof.
  apply (reset_does_not_cancel_pending_request Examples.waiting
           (GeminiService.createChatSession standard) "What is a fever?"
           (App.ResetButton true) (Ok Examples.grounded_response) 2000).
  - reflexivity.
  - reflexivity.
  - left. reflexivity.
Defined.

(** X22: entry ids are decimal renderings of clock readings, and the
    rendering is injective, so the user entry and the reply or error
    entry of one exchange have different ids whenever the clock did not
    run backwards in between; ids are not unique in general, since a user
    entry created one millisecond after a reply gets the reply's id. *)
Theorem exchange_ids_differ
    (prompt : string) (response : GeminiService.ChatReply)
    (sent settled : Z) :
  sent <= settled ->
  id (App.userMessage prompt sent) <> id (App.botMessage response settled) /\
  id (App.userMessage prompt sent) <> id (App.errorMessage settled) /\
  id (App.userMessage prompt (settled + 1)) = id (App.botMessage response settled).
Proof.
  intro Hle. simpl. repeat split.
  - intro H. apply ViewFacts.toString_inj in H. lia.
  - intro H. apply ViewFacts.toString_inj in H. lia.
Qed.

(** A run of X22: a question at 1000 answered at 2000. *)
Lemma exchange_ids_differ_witness :
  id (App.userMessage "What is a fever?" 1000) <>
    id (App.botMessage {| GeminiService.reply_text := None;
                          GeminiService.reply_sources := [] |} 2000) /\
  id (App.userMessage "What is a fever?" 1000) <> id (App.errorMessage 2000) /\
  id (App.userMessage "What is a fever?" (2000 + 1)) =
    id (App.botMessage {| GeminiService.reply_text := None;
                          GeminiService.reply_sources := [] |} 2000).
Proof.
  apply (exchange_ids_differ "What is a fever?"
           {| GeminiService.reply_text := None;
              GeminiService.reply_sources := [] |} 1000 2000).
  lia.
Defined.

(* ===================================================================== *)
(** ** Further facts: the voice overlay and the bubble *)
(* ===================================================================== *)

Module VoiceFacts.

Import Live LiveService AppView.






End VoiceFacts.





Module BubbleFacts.

Import ChatBubble.




End BubbleFacts.



(** X26: what a bubble offers follows from how the entry was made.  The
    error entry of a failed send and every user entry offer neither Share
    nor Speak and show no sources panel; a reply entry offers both, and
    shows the sources panel exactly when its deduplicated source list is
    not empty. *)
Theorem bubble_actions_follow_the_entry
    (prompt : string) (response : GeminiService.ChatReply) (now : Z) :
  ChatBubble.showsActions (App.errorMessage now) = false /\
  ChatBubble.showsSources (App.errorMessage now) = false /\
  ChatBubble.showsActions (App.userMessage prompt now) = false /\
  ChatBubble.showsSources (App.userMessage prompt now) = false /\
  ChatBubble.showsActions (App.botMessage response now) = true /\
  (ChatBubble.showsSources (App.botMessage response now) = true <->
   GeminiService.reply_sources response <> []).
Proof.
  repeat split.
  - unfold ChatBubble.showsSources. simpl.
    destruct (GeminiService.reply_sources response); simpl;
      [discriminate|intros _; discriminate].
  - unfold ChatBubble.showsSources. simpl.
    destruct (GeminiService.reply_sources response); simpl;
      [intro H; exfalso; apply H; reflexivity|reflexivity].
Qed.
